(** * iofuzzer: the dispatch-and-observe engine

    A shallow embedding of [src/lib/io_fuzzer.c] and of the two default
    handlers of [src/main.c], followed by the properties of the
    natural-language specification that concern them.

    Conventions.
    - C integers are [Z]; every conversion the source performs (an
      assignment to a narrower variable, a [va_arg] read) is written out
      as a reduction modulo a power of two.
    - Effects are threaded through a small state-and-termination monad
      [M]: a computation returns, calls [abort()], or leaves the
      behaviour the C standard defines.  The state is the [world]: the
      clock, the uninitialised stack the scratch buffer lives in, and the
      trace of externally visible calls.
    - [input.h] and [io.h] are collaborators of the file: the first is an
      interface ([Input]), the second a type of calls recorded in the
      trace ([io_call]). *)

From Stdlib Require Import ZArith List String Ascii Bool Lia.
Import ListNotations.

Local Open Scope string_scope.
Local Open Scope Z_scope.

(* ================================================================== *)
(** * C integer types *)
(* ================================================================== *)

Module CInt.

Definition UINT16_MAX : Z := 65535.

(** Conversion to [uint8_t], [uint16_t], [uint32_t] / [unsigned int], and
    to the 64-bit [size_t] / [unsigned long long] of the x86-64 Linux
    target that [<sys/io.h>] implies. *)
Definition to_uint8 (z : Z) : Z := z mod 2 ^ 8.
Definition to_uint16 (z : Z) : Z := z mod 2 ^ 16.
Definition to_uint32 (z : Z) : Z := z mod 2 ^ 32.
Definition to_uint64 (z : Z) : Z := z mod 2 ^ 64.

(** Conversion to the 32-bit two's complement [int]. *)
Definition to_int (z : Z) : Z := (z + 2 ^ 31) mod 2 ^ 32 - 2 ^ 31.

Definition sizeof_uint8_t : Z := 1.
Definition sizeof_uint16_t : Z := 2.
Definition sizeof_uint32_t : Z := 4.

End CInt.
Import CInt.

(* ================================================================== *)
(** * Variadic arguments *)
(* ================================================================== *)

(** One argument of a variadic call, after the default promotions.  An
    integer or a pointer occupies a 64-bit general-purpose slot; a
    [double] is kept as its IEEE-754 bit pattern. *)
Inductive va_value : Type :=
| va_int (z : Z)            (* any integer argument *)
| va_str (s : string)       (* [char *] to a NUL-terminated string *)
| va_ptr (addr : Z)         (* any other object pointer *)
| va_double (bits : Z).

Definition va_list : Type := list va_value.

(** The content of the general-purpose slot [va_arg] reads for an integer
    type.  The address of a string literal is not part of the model. *)
Definition va_slot (v : va_value) : option Z :=
  match v with
  | va_int z => Some z
  | va_ptr a => Some a
  | va_str _ => None
  | va_double _ => None
  end.

(* ================================================================== *)
(** * The world: results, state and trace *)
(* ================================================================== *)

(** Output streams of [<stdio.h>]. *)
Inductive FILE : Type :=
| stdout
| stderr
| fopen (path : string).

(** [io.h]: the twelve port-access primitives, as calls.  A string read
    receives the scratch buffer as destination; a string write receives
    the bytes the primitive reads from it, [count] elements wide. *)
Inductive io_call : Type :=
| io_read16 (port : Z)
| io_read32 (port : Z)
| io_read8 (port : Z)
| io_read_string16 (port : Z) (count : Z)
| io_read_string32 (port : Z) (count : Z)
| io_read_string8 (port : Z) (count : Z)
| io_write16 (port : Z) (value : Z)
| io_write32 (port : Z) (value : Z)
| io_write8 (port : Z) (value : Z)
| io_write_string16 (port : Z) (data : list Z) (count : Z)
| io_write_string32 (port : Z) (data : list Z) (count : Z)
| io_write_string8 (port : Z) (data : list Z) (count : Z).

(** Externally visible calls, in program order. *)
Inductive event : Type :=
| ev_io (c : io_call)
| ev_log (stream : option FILE) (format : string) (ap : va_list)
| ev_error (status error : Z) (format : string) (ap : va_list)
| ev_flockfile (f : FILE)
| ev_fprintf (f : FILE) (text : string)
| ev_fflush (f : FILE)
| ev_fsync (f : FILE)
| ev_funlockfile (f : FILE).

Record world : Type := mk_world {
  w_time : Z;            (* what [time(NULL)] returns *)
  w_stack : nat -> Z;    (* the bytes found where [string] is allocated *)
  w_string : Z;          (* the address of [string] *)
  w_trace : list event
}.

Inductive result (A : Type) : Type :=
| Ok (a : A)
| Abort              (* [abort()] was called *)
| Undefined.         (* behaviour the C standard does not define *)

Arguments Ok {A} a.
Arguments Abort {A}.
Arguments Undefined {A}.

Definition M (A : Type) : Type := world -> result A * world.

Definition ret {A} (a : A) : M A := fun w => (Ok a, w).

Definition bind {A B} (m : M A) (k : A -> M B) : M B :=
  fun w =>
    match m w with
    | (Ok a, w') => k a w'
    | (Abort, w') => (Abort, w')
    | (Undefined, w') => (Undefined, w')
    end.

Declare Scope c_scope.
Delimit Scope c_scope with C.
Notation "x <- m ;; k" := (bind m (fun x => k))
  (at level 61, m at next level, right associativity) : c_scope.
Notation "m ;; k" := (bind m (fun _ => k))
  (at level 61, right associativity) : c_scope.
Local Open Scope c_scope.

Definition abort {A} : M A := fun w => (Abort, w).
Definition undefined {A} : M A := fun w => (Undefined, w).

Definition emit (e : event) : M unit :=
  fun w => (Ok tt, mk_world (w_time w) (w_stack w) (w_string w) (w_trace w ++ [e])).

Definition time : M Z := fun w => (Ok (w_time w), w).
Definition stack : M (nat -> Z) := fun w => (Ok (w_stack w), w).
Definition address_of_string : M Z := fun w => (Ok (w_string w), w).

(** A world without events yet, and the result and the trace of a run. *)
Definition initial_world (t : Z) (garbage : nat -> Z) (addr : Z) : world :=
  mk_world t garbage addr [].

Definition run {A} (m : M A) (w : world) : result A * list event :=
  let (r, w') := m w in (r, w_trace w').

(* ================================================================== *)
(** * input.h *)
(* ================================================================== *)

(** Modelled from the spec: the input-derivation engine ([input.h] and
    its implementation) is not among the sources.  Section 6 of the
    specification gives its interface: [derive_range(min,max)],
    [read_fixed(width)] and [read_buffer(width,count)] over a byte-stream
    cursor.  The cursor is the state [istream]; a call returns its value
    and the advanced cursor.  A buffer read returns the bytes it stores
    from the start of its destination. *)
Class Input (istream : Type) : Type := {
  input_derive_range : istream -> Z -> Z -> Z * istream;
  input_read8 : istream -> Z * istream;
  input_read16 : istream -> Z * istream;
  input_read32 : istream -> Z * istream;
  input_read_string8 : istream -> Z -> list Z * istream;
  input_read_string16 : istream -> Z -> list Z * istream;
  input_read_string32 : istream -> Z -> list Z * istream
}.

Section InputContract.
Context {istream : Type} {I : Input istream}.

(** Modelled from the spec: the contract of [derive_range(min,max)]
    (section 6), a value bounded by [min] and [max]. *)
Definition derive_range_bounded : Prop :=
  forall s lo hi, lo <= hi -> lo <= fst (input_derive_range s lo hi) <= hi.

(** Modelled from the spec: the contract of [read_fixed(16)] (sections
    4.3 and 6), a 16-bit value, 0..65535. *)
Definition read16_is_uint16 : Prop :=
  forall s, 0 <= fst (input_read16 s) <= UINT16_MAX.

(** Modelled from the spec: the contract of [read_buffer(width,count)]
    (section 6), which yields exactly [count * width / 8] bytes. *)
Definition read_string_exact : Prop :=
  forall s n, 0 <= n ->
    Z.of_nat (List.length (fst (input_read_string8 s n))) = sizeof_uint8_t * n /\
    Z.of_nat (List.length (fst (input_read_string16 s n))) = sizeof_uint16_t * n /\
    Z.of_nat (List.length (fst (input_read_string32 s n))) = sizeof_uint32_t * n.

End InputContract.

(* ================================================================== *)
(** * lib/io_fuzzer.c *)
(* ================================================================== *)

(** [#define MAX_PORTS 65536] *)
Definition MAX_PORTS : Z := 65536.

(** [#define MAX_STRING (sizeof(uint32_t) * UINT16_MAX)] *)
Definition MAX_STRING : Z := sizeof_uint32_t * UINT16_MAX.

(** The handler types of [io_fuzzer.h].  A function pointer is the
    function it points to; [None] is [NULL]. *)
Definition io_fuzzer_error_handler_t : Type :=
  Z -> Z -> string -> va_list -> M unit.
Definition io_fuzzer_log_handler_t : Type :=
  option FILE -> string -> va_list -> M unit.

(** [struct _io_fuzzer].  [ports] is [NULL] or an array of [int]. *)
Record io_fuzzer_t : Type := mk_io_fuzzer {
  ports : option (list Z);
  num_ports : Z;
  log_handler : option io_fuzzer_log_handler_t;
  log_stream : option FILE
}.

(** The file-scope variables: [static io_fuzzer_error_handler_t
    *error_handler = NULL;] *)
Record globals : Type := mk_globals {
  error_handler : option io_fuzzer_error_handler_t
}.

Definition initial_globals : globals := mk_globals None.

(** ** The scratch buffer [uint8_t string[MAX_STRING]] *)

(** A buffer maps a byte offset to the byte stored there.  [store] writes
    [data] from offset 0; [load] reads [n] bytes from offset 0. *)
Definition buffer : Type := nat -> Z.

Definition store (data : list Z) (b : buffer) : buffer :=
  fun i => nth i data (b i).

Definition load (n : nat) (b : buffer) : list Z := map b (seq 0 n).

(** An access to the first [n] bytes of [string] is defined only within
    the array. *)
Definition within_string (n : Z) : M unit :=
  if n <=? MAX_STRING then ret tt else undefined.

(** [ports[port_num]] *)
Definition array_get (a : option (list Z)) (i : Z) : option Z :=
  match a with
  | Some l => if 0 <=? i then nth_error l (Z.to_nat i) else None
  | None => None
  end.

Definition is_null {A} (p : option A) : bool :=
  match p with Some _ => false | None => true end.

(** ** io_fuzzer_error *)

Definition io_fuzzer_error (g : globals) (io_fuzzer : option io_fuzzer_t)
    (status error : Z) (format : string) (ap : va_list) : M unit :=
  match error_handler g with
  | None => ret tt
  | Some handler =>
      emit (ev_error status error format ap) ;;
      handler status error format ap
  end.

(** ** io_fuzzer_create: [calloc] succeeds or not, and then sets [errno] *)

Definition io_fuzzer_create (g : globals) (calloc : bool) (errno : Z)
    (ports : option (list Z)) (num_ports : Z) : M (option io_fuzzer_t) :=
  if calloc then
    ret (Some (mk_io_fuzzer ports num_ports None None))
  else
    io_fuzzer_error g None 0 errno "io_fuzzer_create" [] ;;
    ret None.

(** ** io_fuzzer_log *)

Definition io_fuzzer_log (io_fuzzer : io_fuzzer_t) (format : string)
    (ap : va_list) : M unit :=
  match log_handler io_fuzzer with
  | None => ret tt
  | Some handler =>
      emit (ev_log (log_stream io_fuzzer) format ap) ;;
      handler (log_stream io_fuzzer) format ap
  end.

(** ** io_fuzzer_iterate *)

Section Iterate.
Context {istream : Type} {I : Input istream}.

(** Lines 69-75: the port. *)
Definition iterate_port (io_fuzzer : io_fuzzer_t) (stream : istream)
    : M (Z * istream) :=
  if is_null (ports io_fuzzer) || (num_ports io_fuzzer =? 0) then
    let (r, stream) := input_derive_range stream 0 (MAX_PORTS - 1) in
    ret (to_uint16 r, stream)
  else
    let (r, stream) := input_derive_range stream 0 (num_ports io_fuzzer - 1) in
    let port_num := to_uint64 r in
    match array_get (ports io_fuzzer) port_num with
    | Some p => ret (to_uint16 p, stream)
    | None => undefined
    end.

(** Lines 77-170: the scratch buffer and the switch. *)
Definition iterate_switch (io_fuzzer : io_fuzzer_t) (port : Z)
    (stream : istream) : M istream :=
  string <- stack ;;
  string_addr <- address_of_string ;;
  let (selector, stream) := input_derive_range stream 0 11 in
  match selector with
  | 0 =>
      io_fuzzer_log io_fuzzer "su"
        [va_str "function"; va_str "io_read16"; va_str "port"; va_int port] ;;
      emit (ev_io (io_read16 port)) ;;
      ret stream
  | 1 =>
      io_fuzzer_log io_fuzzer "su"
        [va_str "function"; va_str "io_read32"; va_str "port"; va_int port] ;;
      emit (ev_io (io_read32 port)) ;;
      ret stream
  | 2 =>
      io_fuzzer_log io_fuzzer "su"
        [va_str "function"; va_str "io_read8"; va_str "port"; va_int port] ;;
      emit (ev_io (io_read8 port)) ;;
      ret stream
  | 3 =>
      let (r, stream) := input_read16 stream in
      let count := to_uint64 r in
      io_fuzzer_log io_fuzzer "suuu"
        [va_str "function"; va_str "io_read_string16"; va_str "port"; va_int port;
         va_str "string"; va_ptr string_addr; va_str "count"; va_int count] ;;
      within_string (sizeof_uint16_t * count) ;;
      emit (ev_io (io_read_string16 port count)) ;;
      ret stream
  | 4 =>
      let (r, stream) := input_read16 stream in
      let count := to_uint64 r in
      io_fuzzer_log io_fuzzer "suuu"
        [va_str "function"; va_str "io_read_string32"; va_str "port"; va_int port;
         va_str "string"; va_ptr string_addr; va_str "count"; va_int count] ;;
      within_string (sizeof_uint32_t * count) ;;
      emit (ev_io (io_read_string32 port count)) ;;
      ret stream
  | 5 =>
      let (r, stream) := input_read16 stream in
      let count := to_uint64 r in
      io_fuzzer_log io_fuzzer "suuu"
        [va_str "function"; va_str "io_read_string8"; va_str "port"; va_int port;
         va_str "string"; va_ptr string_addr; va_str "count"; va_int count] ;;
      within_string (sizeof_uint8_t * count) ;;
      emit (ev_io (io_read_string8 port count)) ;;
      ret stream
  | 6 =>
      let (r, stream) := input_read16 stream in
      let value := to_uint16 r in
      io_fuzzer_log io_fuzzer "suu"
        [va_str "function"; va_str "io_write16"; va_str "port"; va_int port;
         va_str "value"; va_int value] ;;
      emit (ev_io (io_write16 port value)) ;;
      ret stream
  | 7 =>
      let (r, stream) := input_read32 stream in
      let value := to_uint32 r in
      io_fuzzer_log io_fuzzer "suu"
        [va_str "function"; va_str "io_write32"; va_str "port"; va_int port;
         va_str "value"; va_int value] ;;
      emit (ev_io (io_write32 port value)) ;;
      ret stream
  | 8 =>
      let (r, stream) := input_read8 stream in
      let value := to_uint8 r in
      io_fuzzer_log io_fuzzer "suu"
        [va_str "function"; va_str "io_write8"; va_str "port"; va_int port;
         va_str "value"; va_int value] ;;
      emit (ev_io (io_write8 port value)) ;;
      ret stream
  | 9 =>
      let (r, stream) := input_read16 stream in
      let count := to_uint64 r in
      let (data, stream) := input_read_string16 stream count in
      within_string (Z.of_nat (List.length data)) ;;
      let string := store data string in
      io_fuzzer_log io_fuzzer "suuu"
        [va_str "function"; va_str "io_write_string16"; va_str "port"; va_int port;
         va_str "string"; va_ptr string_addr; va_str "count"; va_int count] ;;
      within_string (sizeof_uint16_t * count) ;;
      emit (ev_io (io_write_string16 port
                     (load (Z.to_nat (sizeof_uint16_t * count)) string) count)) ;;
      ret stream
  | 10 =>
      let (r, stream) := input_read16 stream in
      let count := to_uint64 r in
      let (data, stream) := input_read_string32 stream count in
      within_string (Z.of_nat (List.length data)) ;;
      let string := store data string in
      io_fuzzer_log io_fuzzer "suuu"
        [va_str "function"; va_str "io_write_string32"; va_str "port"; va_int port;
         va_str "string"; va_ptr string_addr; va_str "count"; va_int count] ;;
      within_string (sizeof_uint32_t * count) ;;
      emit (ev_io (io_write_string32 port
                     (load (Z.to_nat (sizeof_uint32_t * count)) string) count)) ;;
      ret stream
  | 11 =>
      let (r, stream) := input_read16 stream in
      let count := to_uint64 r in
      let (data, stream) := input_read_string8 stream count in
      within_string (Z.of_nat (List.length data)) ;;
      let string := store data string in
      io_fuzzer_log io_fuzzer "suuu"
        [va_str "function"; va_str "io_write_string8"; va_str "port"; va_int port;
         va_str "string"; va_ptr string_addr; va_str "count"; va_int count] ;;
      within_string (sizeof_uint8_t * count) ;;
      emit (ev_io (io_write_string8 port
                     (load (Z.to_nat (sizeof_uint8_t * count)) string) count)) ;;
      ret stream
  | _ => abort
  end.

Definition io_fuzzer_iterate (io_fuzzer : io_fuzzer_t) (stream : istream)
    : M istream :=
  p <- iterate_port io_fuzzer stream ;;
  iterate_switch io_fuzzer (fst p) (snd p).

End Iterate.

(** ** The setters *)

Definition io_fuzzer_set_error_handler (g : globals)
    (handler : option io_fuzzer_error_handler_t)
    : option io_fuzzer_error_handler_t * globals :=
  let previous_handler := error_handler g in
  (previous_handler, mk_globals handler).

Definition io_fuzzer_set_log_handler (io_fuzzer : io_fuzzer_t)
    (handler : option io_fuzzer_log_handler_t)
    : option io_fuzzer_log_handler_t * io_fuzzer_t :=
  let previous_handler := log_handler io_fuzzer in
  (previous_handler,
   mk_io_fuzzer (ports io_fuzzer) (num_ports io_fuzzer) handler (log_stream io_fuzzer)).

Definition io_fuzzer_set_log_stream (io_fuzzer : io_fuzzer_t)
    (stream : option FILE) : option FILE * io_fuzzer_t :=
  let previous_stream := log_stream io_fuzzer in
  (previous_stream,
   mk_io_fuzzer (ports io_fuzzer) (num_ports io_fuzzer) (log_handler io_fuzzer) stream).

(* ================================================================== *)
(** * The C library *)
(* ================================================================== *)

Definition dquote : ascii := "034"%char.
Definition LF : ascii := "010"%char.
Definition NUL : ascii := "000"%char.

(** [s] between double quotes. *)
Definition quoted (s : string) : string :=
  String dquote (s ++ String dquote EmptyString)%string.

(** ** The integer conversions of [printf] *)

Definition digit (d : Z) : ascii :=
  match d with
  | 0 => "0" | 1 => "1" | 2 => "2" | 3 => "3" | 4 => "4"
  | 5 => "5" | 6 => "6" | 7 => "7" | 8 => "8" | 9 => "9"
  | 10 => "a" | 11 => "b" | 12 => "c" | 13 => "d" | 14 => "e"
  | _ => "f"
  end%char.

(** The digits of [n] in [base], most significant first, in front of
    [acc]; [fuel] bounds the number of digits. *)
Fixpoint digits (fuel : nat) (base n : Z) (acc : string) : string :=
  match fuel with
  | O => acc
  | S fuel =>
      let acc := String (digit (n mod base)) acc in
      if n / base =? 0 then acc else digits fuel base (n / base) acc
  end.

Definition fmt_unsigned (base n : Z) : string :=
  digits (S (Z.to_nat (Z.log2 n))) base n EmptyString.

(** [%u], [%llu] and [%zu]; [%o]; [%x]; [%d]; [%c]. *)
Definition fmt_u (n : Z) : string := fmt_unsigned 10 n.
Definition fmt_o (n : Z) : string := fmt_unsigned 8 n.
Definition fmt_x (n : Z) : string := fmt_unsigned 16 n.
Definition fmt_d (z : Z) : string :=
  if z <? 0 then String "-" (fmt_u (- z)) else fmt_u z.
Definition fmt_c (z : Z) : string :=
  String (ascii_of_N (Z.to_N (to_uint8 z))) EmptyString.

(** What the library leaves to the implementation, or what needs
    floating point: [%f], [%p], the expansion of a format by [vfprintf],
    and [strerror]. *)
Class Libc : Type := {
  fmt_f : Z -> string;
  fmt_p : Z -> string;
  vsprintf : string -> va_list -> string;
  strerror : Z -> string
}.

(** ** [va_arg] *)

Definition va_arg_string (ap : va_list) : M (string * va_list) :=
  match ap with
  | va_str s :: ap => ret (s, ap)
  | _ => undefined
  end.

Definition va_arg_double (ap : va_list) : M (Z * va_list) :=
  match ap with
  | va_double bits :: ap => ret (bits, ap)
  | _ => undefined
  end.

(** [va_arg(ap, T)] for an integer or pointer type [T], whose conversion
    from the slot is [conv]. *)
Definition va_arg_integer (conv : Z -> Z) (ap : va_list) : M (Z * va_list) :=
  match ap with
  | v :: ap =>
      match va_slot v with
      | Some z => ret (conv z, ap)
      | None => undefined
      end
  | [] => undefined
  end.

(* ================================================================== *)
(** * main.c *)
(* ================================================================== *)

Section Main.
Context {libc : Libc}.

(** ** default_error_handler *)

Definition default_error_handler : io_fuzzer_error_handler_t :=
  fun status error format ap =>
    emit (ev_fflush stdout) ;;
    emit (ev_fprintf stderr (vsprintf format ap)) ;;
    (if error =? 0 then ret tt
     else emit (ev_fprintf stderr
                 (": " ++ strerror error ++ String LF EmptyString)%string)) ;;
    emit (ev_fflush stderr) ;;
    abort.

(** ** default_log_handler *)

(** The type tags of the [switch]. *)
Inductive tag : Type :=
| tag_c | tag_d | tag_f | tag_o | tag_p | tag_q | tag_s | tag_u | tag_x | tag_z.

Definition tag_of (c : ascii) : option tag :=
  if (c =? "c")%char then Some tag_c
  else if (c =? "d")%char then Some tag_d
  else if (c =? "f")%char then Some tag_f
  else if (c =? "o")%char then Some tag_o
  else if (c =? "p")%char then Some tag_p
  else if (c =? "q")%char then Some tag_q
  else if (c =? "s")%char then Some tag_s
  else if (c =? "u")%char then Some tag_u
  else if (c =? "x")%char then Some tag_x
  else if (c =? "z")%char then Some tag_z
  else None.

(** The body of the [switch]: one value read and printed. *)
Definition log_value (stream : FILE) (c : ascii) (ap : va_list) : M va_list :=
  match tag_of c with
  | Some tag_c =>
      a <- va_arg_integer to_int ap ;;
      emit (ev_fprintf stream (quoted (fmt_c (fst a)))) ;;
      ret (snd a)
  | Some tag_d =>
      a <- va_arg_integer to_int ap ;;
      emit (ev_fprintf stream (fmt_d (fst a))) ;;
      ret (snd a)
  | Some tag_f =>
      a <- va_arg_double ap ;;
      emit (ev_fprintf stream (fmt_f (fst a))) ;;
      ret (snd a)
  | Some tag_o =>
      a <- va_arg_integer to_uint32 ap ;;
      emit (ev_fprintf stream (fmt_o (fst a))) ;;
      ret (snd a)
  | Some tag_p =>
      a <- va_arg_integer to_uint64 ap ;;
      emit (ev_fprintf stream (fmt_p (fst a))) ;;
      ret (snd a)
  | Some tag_q =>
      a <- va_arg_integer to_uint64 ap ;;
      emit (ev_fprintf stream (fmt_u (fst a))) ;;
      ret (snd a)
  | Some tag_s =>
      a <- va_arg_string ap ;;
      emit (ev_fprintf stream (quoted (fst a))) ;;
      ret (snd a)
  | Some tag_u =>
      a <- va_arg_integer to_uint32 ap ;;
      emit (ev_fprintf stream (fmt_u (fst a))) ;;
      ret (snd a)
  | Some tag_x =>
      a <- va_arg_integer to_uint32 ap ;;
      emit (ev_fprintf stream (fmt_x (fst a))) ;;
      ret (snd a)
  | Some tag_z =>
      a <- va_arg_integer to_uint64 ap ;;
      emit (ev_fprintf stream (fmt_u (fst a))) ;;
      ret (snd a)
  | None => abort
  end.

(** The [for] loop, from index [i] on: [format] is what is left of the
    format from [format[i]]. *)
Fixpoint log_fields (stream : FILE) (i : nat) (format : string) (ap : va_list)
    : M unit :=
  match format with
  | EmptyString => ret tt
  | String c format =>
      if (c =? NUL)%char then ret tt
      else
        (if (0 <? i)%nat then emit (ev_fprintf stream ", ") else ret tt) ;;
        key <- va_arg_string ap ;;
        emit (ev_fprintf stream (quoted (fst key) ++ ": ")%string) ;;
        ap <- log_value stream c (snd key) ;;
        log_fields stream (S i) format ap
  end.

Definition default_log_handler : io_fuzzer_log_handler_t :=
  fun stream format ap =>
    match stream with
    | None => undefined
    | Some stream =>
        emit (ev_flockfile stream) ;;
        emit (ev_fprintf stream "{ ") ;;
        now <- time ;;
        emit (ev_fprintf stream
                (quoted "time" ++ ": " ++ fmt_d (to_int (to_uint32 now)) ++ ",")%string) ;;
        log_fields stream 0 format ap ;;
        emit (ev_fprintf stream (String " " (String "}" (String LF EmptyString)))) ;;
        emit (ev_fflush stream) ;;
        emit (ev_fsync stream) ;;
        emit (ev_funlockfile stream)
    end.

End Main.

(* ================================================================== *)
(** * Two engines *)
(* ================================================================== *)

(** [n] bytes from the front of a byte stream, zero-filled when the
    stream runs out. *)
Fixpoint take_bytes (n : nat) (s : list Z) : list Z * list Z :=
  match n with
  | O => ([], s)
  | S n =>
      let (d, s') := take_bytes n (tl s) in
      (to_uint8 (hd 0 s) :: d, s')
  end.

(** The little-endian value of a list of bytes. *)
Definition little_endian (bytes : list Z) : Z :=
  fold_right (fun b acc => b + 256 * acc) 0 bytes.

Definition read_fixed (n : nat) (s : list Z) : Z * list Z :=
  let (d, s') := take_bytes n s in (little_endian d, s').

Definition read_buffer (width : Z) (s : list Z) (count : Z) : list Z * list Z :=
  take_bytes (Z.to_nat (width * count)) s.

(** Modelled from the spec: an engine that meets the contract of section
    6 over a list of bytes.  A fixed-width read is little-endian, a
    bounded value is a 32-bit read reduced into the range, and an
    exhausted stream reads as zeros. *)
Definition byte_input : Input (list Z) := {|
  input_derive_range s lo hi :=
    let (v, s') := read_fixed 4 s in
    (if lo <=? hi then lo + v mod (hi - lo + 1) else lo, s');
  input_read8 := read_fixed 1;
  input_read16 := read_fixed 2;
  input_read32 := read_fixed 4;
  input_read_string8 := read_buffer sizeof_uint8_t;
  input_read_string16 := read_buffer sizeof_uint16_t;
  input_read_string32 := read_buffer sizeof_uint32_t
|}.

(** Modelled from the spec: an engine that breaks the contract, the
    incorrect engine section 4.1 speaks of.  A bounded value is the next
    byte of the stream whatever the bounds. *)
Definition raw_input : Input (list Z) := {|
  input_derive_range s lo hi := read_fixed 1 s;
  input_read8 := read_fixed 1;
  input_read16 := read_fixed 2;
  input_read32 := read_fixed 4;
  input_read_string8 := read_buffer sizeof_uint8_t;
  input_read_string16 := read_buffer sizeof_uint16_t;
  input_read_string32 := read_buffer sizeof_uint32_t
|}.

(** A [Libc] for concrete runs: [%p] as [0x] and hexadecimal digits, a
    format without conversions printed as it is. *)
Definition example_libc : Libc := {|
  fmt_f bits := "0.000000";
  fmt_p addr := ("0x" ++ fmt_x addr)%string;
  vsprintf format ap := format;
  strerror e := "Cannot allocate memory"
|}.

(* ================================================================== *)
(** * The operation catalog and the observers of a trace *)
(* ================================================================== *)

Inductive kind : Type :=
| scalar_read | string_read | scalar_write | string_write.

(** The table of section 4.1 of the specification, as written there. *)
Definition spec_catalog (selector : Z) : option (Z * kind) :=
  match selector with
  | 0 => Some (16, scalar_read)
  | 1 => Some (32, scalar_read)
  | 2 => Some (8, scalar_read)
  | 3 => Some (16, string_read)
  | 4 => Some (32, string_read)
  | 5 => Some (8, string_read)
  | 6 => Some (16, scalar_write)
  | 7 => Some (32, scalar_write)
  | 8 => Some (8, scalar_write)
  | 9 => Some (16, string_write)
  | 10 => Some (32, string_write)
  | 11 => Some (8, string_write)
  | _ => None
  end.

(** The name, the width in bits and the kind of a primitive of [io.h]. *)
Definition io_name (c : io_call) : string :=
  match c with
  | io_read16 _ => "io_read16"
  | io_read32 _ => "io_read32"
  | io_read8 _ => "io_read8"
  | io_read_string16 _ _ => "io_read_string16"
  | io_read_string32 _ _ => "io_read_string32"
  | io_read_string8 _ _ => "io_read_string8"
  | io_write16 _ _ => "io_write16"
  | io_write32 _ _ => "io_write32"
  | io_write8 _ _ => "io_write8"
  | io_write_string16 _ _ _ => "io_write_string16"
  | io_write_string32 _ _ _ => "io_write_string32"
  | io_write_string8 _ _ _ => "io_write_string8"
  end.

Definition io_width (c : io_call) : Z :=
  match c with
  | io_read8 _ | io_read_string8 _ _ | io_write8 _ _ | io_write_string8 _ _ _ => 8
  | io_read16 _ | io_read_string16 _ _ | io_write16 _ _ | io_write_string16 _ _ _ => 16
  | io_read32 _ | io_read_string32 _ _ | io_write32 _ _ | io_write_string32 _ _ _ => 32
  end.

Definition io_kind (c : io_call) : kind :=
  match c with
  | io_read8 _ | io_read16 _ | io_read32 _ => scalar_read
  | io_read_string8 _ _ | io_read_string16 _ _ | io_read_string32 _ _ => string_read
  | io_write8 _ _ | io_write16 _ _ | io_write32 _ _ => scalar_write
  | io_write_string8 _ _ _ | io_write_string16 _ _ _ | io_write_string32 _ _ _ =>
      string_write
  end.

Definition io_port (c : io_call) : Z :=
  match c with
  | io_read8 p | io_read16 p | io_read32 p
  | io_read_string8 p _ | io_read_string16 p _ | io_read_string32 p _
  | io_write8 p _ | io_write16 p _ | io_write32 p _
  | io_write_string8 p _ _ | io_write_string16 p _ _ | io_write_string32 p _ _ => p
  end.

(** The number of bytes of the scratch buffer a primitive accesses. *)
Definition io_extent (c : io_call) : Z :=
  match c with
  | io_read_string8 _ n | io_write_string8 _ _ n => sizeof_uint8_t * n
  | io_read_string16 _ n | io_write_string16 _ _ n => sizeof_uint16_t * n
  | io_read_string32 _ n | io_write_string32 _ _ n => sizeof_uint32_t * n
  | _ => 0
  end.

(** The element count of a string operation. *)
Definition io_count (c : io_call) : option Z :=
  match c with
  | io_read_string8 _ n | io_write_string8 _ _ n
  | io_read_string16 _ n | io_write_string16 _ _ n
  | io_read_string32 _ n | io_write_string32 _ _ n => Some n
  | _ => None
  end.

(** The primitives invoked, the log calls and the reports of a trace. *)
Definition io_calls (t : list event) : list io_call :=
  flat_map (fun e => match e with ev_io c => [c] | _ => [] end) t.

Definition log_calls (t : list event) : list (string * va_list) :=
  flat_map (fun e => match e with ev_log _ f ap => [(f, ap)] | _ => [] end) t.

Definition error_calls (t : list event) : list (string * va_list) :=
  flat_map (fun e => match e with ev_error _ _ f ap => [(f, ap)] | _ => [] end) t.

(** The value that follows the key [key] in the arguments of a log call. *)
Fixpoint log_field (key : string) (ap : va_list) : option va_value :=
  match ap with
  | va_str k :: v :: ap' => if (k =? key)%string then Some v else log_field key ap'
  | _ => None
  end.

(** The keys of a log call, in call order. *)
Fixpoint log_keys (ap : va_list) : list string :=
  match ap with
  | va_str k :: _ :: ap' => k :: log_keys ap'
  | _ => []
  end.

Definition is_io (e : event) : bool :=
  match e with ev_io _ => true | _ => false end.

Definition is_log (e : event) : bool :=
  match e with ev_log _ _ _ => true | _ => false end.

(** Position of the first event of a trace that satisfies [p]. *)
Fixpoint index_of (p : event -> bool) (t : list event) : option nat :=
  match t with
  | [] => None
  | e :: t' => if p e then Some O else option_map S (index_of p t')
  end.

(** The text printed by a trace, in order. *)
Fixpoint printed (t : list event) : string :=
  match t with
  | [] => EmptyString
  | ev_fprintf _ text :: t' => (text ++ printed t')%string
  | _ :: t' => printed t'
  end.

(* ================================================================== *)
(** * Reading a log record back *)
(* ================================================================== *)

(** The record shape of section 6 of the specification: an opening
    brace, fields ["key": value] separated by commas, a closing brace.  A
    value is a number or a quoted string; blanks between tokens do not
    count. *)
Inductive token : Type :=
| LBRACE | RBRACE | COLON | COMMA
| STR (s : string)
| NUM (s : string).

Inductive lex_state : Type :=
| Between
| InString (acc : string)
| InNumber (acc : string).

Definition is_digit (c : ascii) : bool :=
  (N_of_ascii "0" <=? N_of_ascii c)%N && (N_of_ascii c <=? N_of_ascii "9")%N.

Definition starts_number (c : ascii) : bool := is_digit c || (c =? "-")%char.

Definition is_blank (c : ascii) : bool := (c =? " ")%char || (c =? LF)%char.

(** One character read between two tokens. *)
Definition between_step (c : ascii) : option (lex_state * list token) :=
  if starts_number c then Some (InNumber (String c EmptyString), [])
  else if is_blank c then Some (Between, [])
  else if (c =? dquote)%char then Some (InString EmptyString, [])
  else if (c =? "{")%char then Some (Between, [LBRACE])
  else if (c =? "}")%char then Some (Between, [RBRACE])
  else if (c =? ":")%char then Some (Between, [COLON])
  else if (c =? ",")%char then Some (Between, [COMMA])
  else None.

Definition snoc (acc : string) (c : ascii) : string :=
  (acc ++ String c EmptyString)%string.

Fixpoint lex (st : lex_state) (s : string) : option (list token) :=
  match s with
  | EmptyString =>
      match st with
      | Between => Some []
      | InString _ => None
      | InNumber acc => Some [NUM acc]
      end
  | String c s' =>
      match st with
      | InString acc =>
          if (c =? dquote)%char then option_map (cons (STR acc)) (lex Between s')
          else lex (InString (snoc acc c)) s'
      | InNumber acc =>
          if is_digit c then lex (InNumber (snoc acc c)) s'
          else
            match between_step c with
            | Some (st', ts) => option_map (fun r => NUM acc :: (ts ++ r)%list) (lex st' s')
            | None => None
            end
      | Between =>
          match between_step c with
          | Some (st', ts) => option_map (app ts) (lex st' s')
          | None => None
          end
      end
  end.

Inductive log_value_t : Type :=
| number (digits : string)
| text (s : string).

Definition value_of (t : token) : option log_value_t :=
  match t with
  | NUM n => Some (number n)
  | STR s => Some (text s)
  | _ => None
  end.

Fixpoint parse_fields (ts : list token) : option (list (string * log_value_t)) :=
  match ts with
  | STR k :: COLON :: v :: rest =>
      match value_of v, rest with
      | Some v, [RBRACE] => Some [(k, v)]
      | Some v, COMMA :: rest' => option_map (cons (k, v)) (parse_fields rest')
      | _, _ => None
      end
  | _ => None
  end.

(** The fields of the one record [s] holds, in order. *)
Definition parse_record (s : string) : option (list (string * log_value_t)) :=
  match lex Between s with
  | Some (LBRACE :: ts) => parse_fields ts
  | _ => None
  end.

(** Braces nest and close, and every quoted string is closed. *)
Fixpoint balanced_from (depth : nat) (in_string : bool) (s : string) : bool :=
  match s with
  | EmptyString => (depth =? 0)%nat && negb in_string
  | String c s' =>
      if in_string then balanced_from depth (negb (c =? dquote)%char) s'
      else if (c =? dquote)%char then balanced_from depth true s'
      else if (c =? "{")%char then balanced_from (S depth) false s'
      else if (c =? "}")%char then
        match depth with
        | O => false
        | S d => balanced_from d false s'
        end
      else balanced_from depth false s'
  end.

Definition balanced (s : string) : bool := balanced_from 0 false s.

(** The log call [io_fuzzer_iterate] makes for a primitive: its format
    and its arguments. *)
Definition log_format (c : io_call) : string :=
  match io_kind c with
  | scalar_read => "su"
  | scalar_write => "suu"
  | string_read | string_write => "suuu"
  end.

Definition log_operands (string_addr : Z) (c : io_call) : va_list :=
  match c with
  | io_read8 _ | io_read16 _ | io_read32 _ => []
  | io_write8 _ v | io_write16 _ v | io_write32 _ v => [va_str "value"; va_int v]
  | io_read_string8 _ n | io_read_string16 _ n | io_read_string32 _ n
  | io_write_string8 _ _ n | io_write_string16 _ _ n | io_write_string32 _ _ n =>
      [va_str "string"; va_ptr string_addr; va_str "count"; va_int n]
  end.

Definition log_arguments (string_addr : Z) (c : io_call) : va_list :=
  ([va_str "function"; va_str (io_name c); va_str "port"; va_int (io_port c)]
   ++ log_operands string_addr c)%list.

(** The record of section 6 for a primitive: time, function, port, then
    the operation-specific fields, an unsigned field rendered by [%u]. *)
Definition spec_operands (string_addr : Z) (c : io_call)
    : list (string * log_value_t) :=
  match c with
  | io_read8 _ | io_read16 _ | io_read32 _ => []
  | io_write8 _ v | io_write16 _ v | io_write32 _ v =>
      [("value", number (fmt_u (to_uint32 v)))]
  | io_read_string8 _ n | io_read_string16 _ n | io_read_string32 _ n
  | io_write_string8 _ _ n | io_write_string16 _ _ n | io_write_string32 _ _ n =>
      [("string", number (fmt_u (to_uint32 string_addr)));
       ("count", number (fmt_u (to_uint32 n)))]
  end.

Definition spec_record (now string_addr : Z) (c : io_call)
    : list (string * log_value_t) :=
  ("time", number (fmt_d (to_int (to_uint32 now))))
  :: ("function", text (io_name c))
  :: ("port", number (fmt_u (to_uint32 (io_port c))))
  :: spec_operands string_addr c.

(** The world after more events. *)
Definition extend (w : world) (evs : list event) : world :=
  mk_world (w_time w) (w_stack w) (w_string w) (w_trace w ++ evs).

(** The recognised type tags, and a format that holds another one before
    its terminator. *)
Definition recognized (c : ascii) : bool :=
  existsb (Ascii.eqb c) ["c"; "d"; "f"; "o"; "p"; "q"; "s"; "u"; "x"; "z"]%char.

Fixpoint has_unrecognized_tag (format : string) : bool :=
  match format with
  | EmptyString => false
  | String c format' =>
      if (c =? NUL)%char then false
      else negb (recognized c) || has_unrecognized_tag format'
  end.

(** The arguments supply a key and a value of the type of the tag for
    every tag in front of the first unrecognised one, and a key for that
    one. *)
Definition value_fits (c : ascii) (v : va_value) : bool :=
  if (c =? "s")%char then match v with va_str _ => true | _ => false end
  else if (c =? "f")%char then match v with va_double _ => true | _ => false end
  else match va_slot v with Some _ => true | None => false end.

Fixpoint arguments_fit (format : string) (ap : va_list) : bool :=
  match format with
  | EmptyString => true
  | String c format' =>
      if (c =? NUL)%char then true
      else
        match ap with
        | va_str _ :: ap' =>
            if recognized c then
              match ap' with
              | v :: ap'' => value_fits c v && arguments_fit format' ap''
              | [] => false
              end
            else true
        | _ => false
        end
  end.

(** A string of decimal digits, and a number token: an optional minus
    sign or a digit, then digits. *)
Fixpoint all_digits (s : string) : bool :=
  match s with
  | EmptyString => true
  | String c s' => is_digit c && all_digits s'
  end.

Definition is_number (s : string) : bool :=
  match s with
  | EmptyString => false
  | String c s' => starts_number c && all_digits s'
  end.

(** The value a string of decimal digits denotes, after [acc]. *)
Definition digit_value (c : ascii) : Z := Z.of_N (N_of_ascii c) - 48.

Fixpoint decimal_value (s : string) (acc : Z) : Z :=
  match s with
  | EmptyString => acc
  | String c s' => decimal_value s' (10 * acc + digit_value c)
  end.

(** The instances the properties are about: no log handler, or the
    default one on an open stream, as [main] installs it. *)
Definition logs_by_default {libc : Libc} (io_fuzzer : io_fuzzer_t) (f : FILE) : Prop :=
  log_handler io_fuzzer = Some default_log_handler /\ log_stream io_fuzzer = Some f.

(** [num_ports] is a [size_t] and counts the entries of [ports]. *)
Definition counts_ports (io_fuzzer : io_fuzzer_t) : Prop :=
  0 <= num_ports io_fuzzer < 2 ^ 64 /\
  forall l, ports io_fuzzer = Some l -> num_ports io_fuzzer = Z.of_nat (List.length l).

(** The instances and the world of the concrete runs: the port list
    [0x60] with the default log handler on [stdout], the instance
    [io_fuzzer_create] returns for no list, and a list with an entry that
    is not a port number. *)
Definition fuzzer_0x60 : io_fuzzer_t :=
  mk_io_fuzzer (Some [96]) 1 (Some (@default_log_handler example_libc)) (Some stdout).

Definition silent_fuzzer : io_fuzzer_t := mk_io_fuzzer None 0 None None.

Definition fuzzer_65536 : io_fuzzer_t := mk_io_fuzzer (Some [65536]) 1 None None.

Definition world_0 : world :=
  initial_world 1700000000 (fun _ => 170) 140737488347136.

(** Another clock, another stack, another address. *)
Definition world_1 : world :=
  initial_world 1800000000 (fun i => Z.of_nat i mod 256) 140737488351232.

(** A 16-bit string write of two elements to port [0x60]. *)
Definition write_string16_stream : list Z :=
  [0; 0; 0; 0; 9; 0; 0; 0; 2; 0; 1; 2; 3; 4].

(** [m], started in [w], ends with [r] after the events [evs]. *)
Definition runs {A} (m : M A) (w : world) (r : result A) (evs : list event) : Prop :=
  m w = (r, extend w evs).

(** The events of one iteration around the primitive [c]: with no log
    handler the invocation alone; with the default one the log call and
    the record it prints, then the invocation. *)
Definition iteration_events {libc : Libc} (io_fuzzer : io_fuzzer_t) (out : FILE) (w : world)
    (c : io_call) (evs : list event) : Prop :=
  (log_handler io_fuzzer = None -> evs = [ev_io c]) /\
  (logs_by_default io_fuzzer out ->
   exists record,
     evs = ev_log (Some out) (log_format c) (log_arguments (w_string w) c)
             :: (record ++ [ev_io c])%list /\
     io_calls record = [] /\ log_calls record = [] /\
     parse_record (printed record) = Some (spec_record (w_time w) (w_string w) c) /\
     balanced (printed record) = true).

(** What [io_fuzzer_error] adds to the trace when [default_error_handler]
    is installed: the call, then the report on [stderr]. *)
Definition report_events {libc : Libc} (status error : Z) (format : string)
    (ap : va_list) : list event :=
  ([ev_error status error format ap; ev_fflush stdout;
    ev_fprintf stderr (vsprintf format ap)]
   ++ (if error =? 0 then []
       else [ev_fprintf stderr (": " ++ strerror error ++ String LF EmptyString)%string])
   ++ [ev_fflush stderr])%list.

(** ** The sentences of the specification that the code does not meet,
    as they are written *)

(** Section 8: a dispatch invokes exactly one primitive, that of the
    catalog row, and produces exactly one log record whose ["function"]
    field names it. *)
Definition dispatched_and_logged (selector : Z) (evs : list event) : Prop :=
  exists c format ap,
    io_calls evs = [c] /\
    spec_catalog selector = Some (io_width c, io_kind c) /\
    log_calls evs = [(format, ap)] /\
    log_field "function" ap = Some (va_str (io_name c)).

(** Section 4.1: an out-of-range selector terminates the process through
    the fatal error reporter, with no primitive and no log record. *)
Definition fatal_via_reporter {A} (r : result A) (evs : list event) : Prop :=
  r = Abort /\ error_calls evs <> [] /\ io_calls evs = [] /\ log_calls evs = [].

(** Section 4.2: with a list of entries, the resolved port is the entry
    at an index within the list. *)
Definition resolved_from_list (l : list Z) (port : Z) : Prop :=
  exists index, (index < List.length l)%nat /\ nth_error l index = Some port.

(** Section 4.4: the log event comes after the invocation, never before. *)
Definition logged_after_invoked (evs : list event) : Prop :=
  forall i j,
    index_of is_log evs = Some i -> index_of is_io evs = Some j -> (j < i)%nat.

(** Section 4.6: a reported fatal condition is reported and the process
    terminated; the core does not continue past it. *)
Definition reported_and_terminated {A} (r : result A) (evs : list event) : Prop :=
  r = Abort /\ error_calls evs <> [].


Definition io_data (c : io_call) : option (list Z) :=
  match c with
  | io_write_string8 _ d _ | io_write_string16 _ d _ | io_write_string32 _ d _ => Some d
  | _ => None
  end.

(** The same end, for a result of another type. *)
Definition same_end {A B} (r : result A) (b : B) : result B :=
  match r with
  | Ok _ => Ok b
  | Abort => Abort
  | Undefined => Undefined
  end.

(** What an empty format makes [default_log_handler] do. *)
Definition time_only_record (stream : FILE) (now : Z) : list event :=
  [ev_flockfile stream; ev_fprintf stream "{ ";
   ev_fprintf stream
     (quoted "time" ++ ": " ++ fmt_d (to_int (to_uint32 now)) ++ ",")%string;
   ev_fprintf stream (String " " (String "}" (String LF EmptyString)));
   ev_fflush stream; ev_fsync stream; ev_funlockfile stream].

(** A log handler that gives up. *)
Definition aborting_log_handler : io_fuzzer_log_handler_t :=
  fun _ _ _ => abort.

(* ================================================================== *)
(** * main.c: random_buf *)
(* ================================================================== *)

(** [random()] is the sequence of its results: its [k]-th call returns
    [rand k].  The loop of [random_buf] from index [i] on, [n] bytes to
    go, [number] holding the last number drawn and [calls] counting the
    calls made: the bytes stored and the calls made at the end. *)
Fixpoint random_buf_loop (rand : nat -> Z) (n i : nat) (number : Z) (calls : nat)
    : list Z * nat :=
  match n with
  | O => ([], calls)
  | S n' =>
      let drawn :=
        if (i mod Z.to_nat sizeof_uint16_t =? 0)%nat
        then (to_uint32 (rand calls), S calls)
        else (number, calls) in
      let byte :=
        Z.land (Z.shiftr (fst drawn)
                  (8 * Z.of_nat (i mod Z.to_nat sizeof_uint16_t))) 255 in
      let rest := random_buf_loop rand n' (S i) (fst drawn) (snd drawn) in
      (byte :: fst rest, snd rest)
  end.

(** [random_buf(buf, size)], started after [calls] calls of [random()]. *)
Definition random_buf (rand : nat -> Z) (calls size : nat) : list Z * nat :=
  random_buf_loop rand size 0 0 calls.

(** The two bytes [random_buf] keeps of a number, low byte first. *)
Definition low_bytes (r : Z) : list Z := [r mod 256; (r / 256) mod 256].

(* ================================================================== *)
(** * Log calls in general *)
(* ================================================================== *)

(** A field of a log call whose value prints in decimal or as a string. *)
Inductive field : Type :=
| field_s (s : string)
| field_d (z : Z)
| field_u (z : Z)
| field_q (z : Z)
| field_z (z : Z).

Definition field_tag (v : field) : ascii :=
  match v with
  | field_s _ => "s" | field_d _ => "d" | field_u _ => "u"
  | field_q _ => "q" | field_z _ => "z"
  end%char.

Definition field_argument (v : field) : va_value :=
  match v with
  | field_s s => va_str s
  | field_d z | field_u z | field_q z | field_z z => va_int z
  end.

(** What the field reads back as. *)
Definition field_value (v : field) : log_value_t :=
  match v with
  | field_s s => text s
  | field_d z => number (fmt_d (to_int z))
  | field_u z => number (fmt_u (to_uint32 z))
  | field_q z | field_z z => number (fmt_u (to_uint64 z))
  end.

Fixpoint fields_format (fields : list (string * field)) : string :=
  match fields with
  | [] => EmptyString
  | (_, v) :: fields' => String (field_tag v) (fields_format fields')
  end.

Fixpoint fields_arguments (fields : list (string * field)) : va_list :=
  match fields with
  | [] => []
  | (k, v) :: fields' => va_str k :: field_argument v :: fields_arguments fields'
  end.

(** A string without a double quote, and fields whose keys and strings
    are such. *)
Fixpoint plain (s : string) : bool :=
  match s with
  | EmptyString => true
  | String c s' => negb (c =? dquote)%char && plain s'
  end.

Definition plain_field (kv : string * field) : bool :=
  plain (fst kv) &&
  match snd kv with
  | field_s s => plain s
  | _ => true
  end.

(** Every tag of a format, up to its terminator, is a recognised one. *)
Fixpoint all_recognized (format : string) : bool :=
  match format with
  | EmptyString => true
  | String c format' =>
      if (c =? NUL)%char then true
      else recognized c && all_recognized format'
  end.

(** The arguments supply a key and a value of the type of the tag for
    every tag of the format. *)
Fixpoint arguments_match (format : string) (ap : va_list) : bool :=
  match format with
  | EmptyString => true
  | String c format' =>
      if (c =? NUL)%char then true
      else
        match ap with
        | va_str _ :: v :: ap' => value_fits c v && arguments_match format' ap'
        | _ => false
        end
  end.

(** The text and the tokens of a field, and those of the fields the loop
    of [default_log_handler] prints from index [i] on: a field that is
    not the first comes after a comma and a blank. *)
Definition field_text (v : field) : string :=
  match field_value v with
  | number n => n
  | text s => quoted s
  end.

Definition field_token (v : field) : token :=
  match field_value v with
  | number n => NUM n
  | text s => STR s
  end.

Fixpoint fields_text (i : nat) (fields : list (string * field)) : string :=
  match fields with
  | [] => EmptyString
  | (k, v) :: fields' =>
      ((if (0 <? i)%nat then ", " else EmptyString)
       ++ quoted k ++ ": " ++ field_text v ++ fields_text (S i) fields')%string
  end.

Fixpoint fields_tokens (i : nat) (fields : list (string * field)) : list token :=
  match fields with
  | [] => []
  | (k, v) :: fields' =>
      ((if (0 <? i)%nat then [COMMA] else [])
       ++ STR k :: COLON :: field_token v :: fields_tokens (S i) fields')%list
  end.

Definition is_fprintf_to (f : FILE) (e : event) : Prop :=
  exists text, e = ev_fprintf f text.

(* ================================================================== *)
(** * main.c: main, after the options *)
(* ================================================================== *)

Definition EXIT_SUCCESS : Z := 0.
Definition EXIT_FAILURE : Z := 1.

(** [#define IO_FUZZER_MAX_INPUT (20 + (sizeof(uint32_t) * UINT16_MAX))] *)
Definition IO_FUZZER_MAX_INPUT : Z := 20 + sizeof_uint32_t * UINT16_MAX.

(** The variables the option loop of [main] leaves. *)
Record options : Type := mk_options {
  opt_debug : bool;
  opt_generate : bool;
  opt_input : option string;       (* [argv[optind]] *)
  opt_output : option string;
  opt_ports : option (list Z);
  opt_num_ports : Z;
  opt_quiet : bool;
  opt_seed : Z;
  opt_timeout : Z;
  opt_verbose : bool
}.

(** What the system answers to [main]: whether [fopen] opens the output
    file, whether [iopl(3)] and [calloc] succeed, [errno] after a failure,
    the standard input, the input files [fopen] opens for reading, the
    results of [random()] after [srandom(seed)], and the stream
    [fmemopen] gives for a buffer. *)
Record environment (istream : Type) : Type := mk_environment {
  env_fopen_output : string -> bool;
  env_iopl : bool;
  env_calloc : bool;
  env_errno : Z;
  env_stdin : istream;
  env_fopen_input : string -> option istream;
  env_random : Z -> nat -> Z;
  env_fmemopen : list Z -> option istream
}.

Arguments env_fopen_output {istream} e.
Arguments env_iopl {istream} e.
Arguments env_calloc {istream} e.
Arguments env_errno {istream} e.
Arguments env_stdin {istream} e.
Arguments env_fopen_input {istream} e.
Arguments env_random {istream} e.
Arguments env_fmemopen {istream} e.

(** [io_fuzzer_destroy], [fclose] and [free] leave the world as it is. *)
Definition io_fuzzer_destroy (io_fuzzer : option io_fuzzer_t) : M unit :=
  match io_fuzzer with
  | None => ret tt
  | Some _ => ret tt
  end.

Definition fclose : M unit := ret tt.
Definition free : M unit := ret tt.

Section MainRun.
Context {libc : Libc} {istream : Type} {I : Input istream}.

(** [perror(s)] *)
Definition perror (e : environment istream) (s : string) : M unit :=
  emit (ev_fprintf stderr
          (s ++ ": " ++ strerror (env_errno e) ++ String LF EmptyString)%string).

(** The label [err]. *)
Definition main_err (io_fuzzer : option io_fuzzer_t) : M (option Z) :=
  io_fuzzer_destroy io_fuzzer ;;
  fclose ;;
  free ;;
  ret (Some EXIT_FAILURE).

(** The [for (;;)] of the generation mode, watched for [n] iterations;
    [None] is a process still running. *)
Fixpoint main_generate (e : environment istream) (seed : Z)
    (io_fuzzer : io_fuzzer_t) (n calls : nat) : M (option Z) :=
  match n with
  | O => ret None
  | S n' =>
      let buf := random_buf (env_random e seed) calls (Z.to_nat IO_FUZZER_MAX_INPUT) in
      match env_fmemopen e (fst buf) with
      | None =>
          perror e "fmemopen" ;;
          main_err (Some io_fuzzer)
      | Some stream =>
          io_fuzzer_iterate io_fuzzer stream ;;
          fclose ;;
          main_generate e seed io_fuzzer n' (snd buf)
      end
  end.

(** The iteration of the replay mode on [stream], and the end of [main]. *)
Definition main_replay_iterate (io_fuzzer : io_fuzzer_t) (stream : istream)
    : M (option Z) :=
  io_fuzzer_iterate io_fuzzer stream ;;
  fclose ;;
  io_fuzzer_destroy (Some io_fuzzer) ;;
  fclose ;;
  free ;;
  ret (Some EXIT_SUCCESS).

(** The replay mode.  The [stream] that [fopen(input, "r")] initialises
    is declared inside the [if]: it is another variable than the [stream]
    the iteration reads, which is [stdin]. *)
Definition main_replay (e : environment istream) (input : option string)
    (io_fuzzer : io_fuzzer_t) : M (option Z) :=
  let stream := env_stdin e in
  match input with
  | Some path =>
      match env_fopen_input e path with
      | Some inner_stream => main_replay_iterate io_fuzzer stream
      | None => perror e "fopen" ;; ret (Some EXIT_FAILURE)
      end
  | None => main_replay_iterate io_fuzzer stream
  end.

(** [main] from line 236 on, the generation loop watched for
    [iterations] iterations. *)
Definition main_after_options (o : options) (e : environment istream)
    (iterations : nat) : M (option Z) :=
  match
    match opt_output o with
    | Some path => if env_fopen_output e path then Some (fopen path) else None
    | None => Some stdout
    end
  with
  | None => perror e "fopen" ;; ret (Some EXIT_FAILURE)
  | Some stream =>
      if negb (env_iopl e) then perror e "iopl" ;; ret (Some EXIT_FAILURE)
      else
        let g := snd (io_fuzzer_set_error_handler initial_globals
                        (Some default_error_handler)) in
        io_fuzzer <- io_fuzzer_create g (env_calloc e) (env_errno e)
                       (opt_ports o) (opt_num_ports o) ;;
        match io_fuzzer with
        | None =>
            perror e "io_fuzzer_create" ;;
            main_err None
        | Some io_fuzzer =>
            let io_fuzzer :=
              snd (io_fuzzer_set_log_handler io_fuzzer (Some default_log_handler)) in
            let io_fuzzer :=
              snd (io_fuzzer_set_log_stream io_fuzzer (Some stream)) in
            if opt_generate o then
              main_generate e (opt_seed o) io_fuzzer iterations 0
            else
              main_replay e (opt_input o) io_fuzzer
        end
  end.

End MainRun.

(** The same options with no input file named. *)
Definition without_input (o : options) : options :=
  mk_options (opt_debug o) (opt_generate o) None (opt_output o) (opt_ports o)
    (opt_num_ports o) (opt_quiet o) (opt_seed o) (opt_timeout o) (opt_verbose o).

(** The output file, when one is named, opens. *)
Definition output_opens {istream} (o : options) (e : environment istream) : Prop :=
  forall path, opt_output o = Some path -> env_fopen_output e path = true.

(** The stream [main] logs to. *)
Definition output_stream (o : options) : FILE :=
  match opt_output o with
  | Some path => fopen path
  | None => stdout
  end.

(** The instance [main] iterates on. *)
Definition main_fuzzer {libc : Libc} (o : options) : io_fuzzer_t :=
  mk_io_fuzzer (opt_ports o) (opt_num_ports o) (Some default_log_handler)
    (Some (output_stream o)).

(** An environment for concrete runs over the byte engine: everything
    succeeds, the standard input selects [io_write8], the file [input]
    selects [io_read16], and [random()] counts up. *)
Definition example_environment : environment (list Z) := {|
  env_fopen_output := fun _ => true;
  env_iopl := true;
  env_calloc := true;
  env_errno := 12;
  env_stdin := [0; 0; 0; 0; 8; 0; 0; 0; 65];
  env_fopen_input := fun _ => Some [0; 0; 0; 0; 0; 0; 0; 0];
  env_random := fun seed k => seed + Z.of_nat k;
  env_fmemopen := fun bytes => Some bytes
|}.

Definition example_options : options :=
  mk_options false false (Some "input") None (Some [96]) 1 false 1 5 false.

(** The same run in the generation mode. *)
Definition generate_options : options :=
  mk_options false true None None (Some [96]) 1 false 1 5 false.

(** The environment of a process without the I/O privilege, and that of
    a process out of memory. *)
Definition unprivileged_environment : environment (list Z) :=
  mk_environment (list Z) (env_fopen_output example_environment) false
    (env_calloc example_environment) 1 (env_stdin example_environment)
    (env_fopen_input example_environment) (env_random example_environment)
    (env_fmemopen example_environment).

Definition exhausted_environment : environment (list Z) :=
  mk_environment (list Z) (env_fopen_output example_environment) true false 12
    (env_stdin example_environment) (env_fopen_input example_environment)
    (env_random example_environment) (env_fmemopen example_environment).

(** The port list [0x60] with a log handler that gives up, with the
    default log handler and no stream, and with a count of five for its
    one entry. *)
Definition aborting_fuzzer : io_fuzzer_t :=
  mk_io_fuzzer (Some [96]) 1 (Some aborting_log_handler) (Some stdout).

Definition unstreamed_fuzzer : io_fuzzer_t :=
  mk_io_fuzzer (Some [96]) 1 (Some (@default_log_handler example_libc)) None.

Definition overcounted_fuzzer : io_fuzzer_t := mk_io_fuzzer (Some [96]) 5 None None.

(** The environment of a process whose input files do not open. *)
Definition unreadable_environment : environment (list Z) :=
  mk_environment (list Z) (env_fopen_output example_environment) true true 2
    (env_stdin example_environment) (fun _ => None)
    (env_random example_environment) (env_fmemopen example_environment).

(** An error handler that returns. *)
Definition returning_error_handler : io_fuzzer_error_handler_t :=
  fun _ _ _ _ => ret tt.

(* ================================================================== *)
(** * Properties *)
(* ================================================================== *)

(** ** C integers and the scratch buffer *)

Lemma to_uint16_range z : 0 <= to_uint16 z <= UINT16_MAX.
Proof.
  unfold to_uint16, UINT16_MAX.
  pose proof (Z.mod_pos_bound z (2 ^ 16) ltac:(lia)). lia.
Qed.

Lemma to_uint16_id z : 0 <= z <= UINT16_MAX -> to_uint16 z = z.
Proof. unfold to_uint16, UINT16_MAX. intros. apply Z.mod_small. lia. Qed.

Lemma to_uint64_id z : 0 <= z <= UINT16_MAX -> to_uint64 z = z.
Proof. unfold to_uint64, UINT16_MAX. intros. apply Z.mod_small. lia. Qed.

Lemma to_uint64_nonneg z : 0 <= to_uint64 z.
Proof.
  unfold to_uint64. pose proof (Z.mod_pos_bound z (2 ^ 64) ltac:(lia)). lia.
Qed.

Lemma load_length n b : List.length (load n b) = n.
Proof. unfold load. now rewrite length_map, length_seq. Qed.

Lemma load_store data b : load (List.length data) (store data b) = data.
Proof.
  apply nth_ext with (d := 0) (d' := 0).
  - apply load_length.
  - intros i Hi. rewrite load_length in Hi.
    unfold load, store.
    set (f := fun i : nat => nth i data (b i)).
    rewrite nth_indep with (d' := f 0%nat)
      by now rewrite length_map, length_seq.
    rewrite map_nth, seq_nth by assumption. simpl. unfold f.
    now apply nth_indep.
Qed.

(** ** The byte engine meets the contract *)

Lemma take_bytes_length n s : List.length (fst (take_bytes n s)) = n.
Proof.
  revert s. induction n as [|n IH]; intros s; simpl; [reflexivity|].
  specialize (IH (tl s)). destruct (take_bytes n (tl s)). simpl in *. now rewrite IH.
Qed.

Lemma take_bytes_range n s :
  Forall (fun b => 0 <= b < 256) (fst (take_bytes n s)).
Proof.
  revert s. induction n as [|n IH]; intros s; simpl; [constructor|].
  specialize (IH (tl s)). destruct (take_bytes n (tl s)). simpl in *.
  constructor; [|assumption].
  unfold to_uint8. apply Z.mod_pos_bound. lia.
Qed.

Lemma little_endian_range bytes :
  Forall (fun b => 0 <= b < 256) bytes ->
  0 <= little_endian bytes < 256 ^ Z.of_nat (List.length bytes).
Proof.
  induction 1 as [|b l Hb Hl IH]; [simpl; lia|].
  cbn [List.length]. rewrite Nat2Z.inj_succ, Z.pow_succ_r by lia.
  unfold little_endian in *. cbn [fold_right].
  set (x := fold_right (fun b acc => b + 256 * acc) 0 l) in *.
  set (y := 256 ^ Z.of_nat (List.length l)) in *. lia.
Qed.

Lemma byte_input_derive_range_bounded : @derive_range_bounded _ byte_input.
Proof.
  intros s lo hi H. cbn [input_derive_range byte_input].
  destruct (read_fixed 4 s) as [v s']. cbn [fst].
  pose proof (Z.mod_pos_bound v (hi - lo + 1) ltac:(lia)) as Hm.
  apply Z.leb_le in H. rewrite H.
  set (m := v mod (hi - lo + 1)) in *. apply Z.leb_le in H. lia.
Qed.

Lemma byte_input_read16_is_uint16 : @read16_is_uint16 _ byte_input.
Proof.
  intros s. cbn [input_read16 byte_input]. unfold read_fixed.
  pose proof (take_bytes_length 2 s) as Hl. pose proof (take_bytes_range 2 s) as Hr.
  destruct (take_bytes 2 s) as [d s']. cbn [fst] in *.
  apply little_endian_range in Hr. rewrite Hl in Hr. unfold UINT16_MAX.
  change (256 ^ Z.of_nat 2) with 65536 in Hr. lia.
Qed.

Lemma byte_input_read_string_exact : @read_string_exact _ byte_input.
Proof.
  intros s n Hn.
  cbn [input_read_string8 input_read_string16 input_read_string32 byte_input].
  unfold read_buffer. rewrite !take_bytes_length.
  unfold sizeof_uint8_t, sizeof_uint16_t, sizeof_uint32_t.
  repeat split; rewrite Z2Nat.id; lia.
Qed.

(** ** Numbers in a record *)

Lemma append_empty_r (s : string) : (s ++ EmptyString)%string = s.
Proof. induction s as [|c s IH]; simpl; [reflexivity | now rewrite IH]. Qed.

Lemma append_assoc3 (a b c : string) : ((a ++ b) ++ c)%string = (a ++ (b ++ c))%string.
Proof. induction a as [|x a IH]; simpl; [reflexivity | now rewrite IH]. Qed.

Lemma digit_is_digit d : 0 <= d < 10 -> is_digit (digit d) = true.
Proof.
  intros H.
  assert (d = 0 \/ d = 1 \/ d = 2 \/ d = 3 \/ d = 4 \/ d = 5 \/ d = 6 \/ d = 7
          \/ d = 8 \/ d = 9) as E by lia.
  repeat (destruct E as [-> | E]; [reflexivity|]). now subst.
Qed.

Lemma digits_all_digits fuel n acc :
  all_digits acc = true -> all_digits (digits fuel 10 n acc) = true.
Proof.
  revert n acc. induction fuel as [|fuel IH]; intros n acc H; simpl; [assumption|].
  assert (all_digits (String (digit (n mod 10)) acc) = true) as H'.
  { simpl. rewrite H, digit_is_digit; [reflexivity|].
    apply Z.mod_pos_bound. lia. }
  destruct (n / 10 =? 0); [assumption | now apply IH].
Qed.

Lemma digits_nonempty fuel base n c acc :
  digits fuel base n (String c acc) <> EmptyString.
Proof.
  revert n c acc. induction fuel as [|fuel IH]; intros n c acc; simpl; [discriminate|].
  destruct (n / base =? 0); [discriminate | apply IH].
Qed.

Lemma all_digits_is_number s :
  s <> EmptyString -> all_digits s = true -> is_number s = true.
Proof.
  destruct s as [|c s]; [congruence|]. simpl. intros _ H.
  apply andb_true_iff in H as [Hc Hs]. unfold starts_number. now rewrite Hc, Hs.
Qed.

Lemma fmt_u_all_digits n : all_digits (fmt_u n) = true.
Proof. unfold fmt_u, fmt_unsigned. now apply digits_all_digits. Qed.

Lemma fmt_u_is_number n : is_number (fmt_u n) = true.
Proof.
  apply all_digits_is_number; [|apply fmt_u_all_digits].
  unfold fmt_u, fmt_unsigned. simpl.
  destruct (n / 10 =? 0); [discriminate | apply digits_nonempty].
Qed.

Lemma fmt_d_is_number z : is_number (fmt_d z) = true.
Proof.
  unfold fmt_d. destruct (z <? 0); [|apply fmt_u_is_number].
  simpl. apply fmt_u_all_digits.
Qed.

(** [%u] prints the decimal digits of its argument. *)

Lemma digit_value_digit d : 0 <= d < 10 -> digit_value (digit d) = d.
Proof.
  intros H.
  assert (d = 0 \/ d = 1 \/ d = 2 \/ d = 3 \/ d = 4 \/ d = 5 \/ d = 6 \/ d = 7
          \/ d = 8 \/ d = 9) as E by lia.
  repeat (destruct E as [-> | E]; [reflexivity|]). now subst.
Qed.

Lemma decimal_value_acc s : forall acc,
  decimal_value s acc
  = acc * 10 ^ Z.of_nat (String.length s) + decimal_value s 0.
Proof.
  induction s as [|c s IH]; intros acc; cbn [decimal_value String.length].
  - change (Z.of_nat 0) with 0. rewrite Z.pow_0_r. lia.
  - rewrite IH. rewrite (IH (10 * 0 + digit_value c)).
    rewrite Nat2Z.inj_succ, Z.pow_succ_r by lia.
    set (p := 10 ^ Z.of_nat (String.length s)). lia.
Qed.

Lemma decimal_value_digits fuel : forall n acc,
  0 <= n < 2 ^ Z.of_nat fuel ->
  decimal_value (digits fuel 10 n acc) 0
  = n * 10 ^ Z.of_nat (String.length acc) + decimal_value acc 0.
Proof.
  induction fuel as [|fuel IH]; intros n acc Hn.
  - change (2 ^ Z.of_nat 0) with 1 in Hn. assert (n = 0) as -> by lia.
    cbn [digits]. lia.
  - cbn [digits].
    rewrite Nat2Z.inj_succ, Z.pow_succ_r in Hn by lia.
    pose proof (Z.mod_pos_bound n 10 ltac:(lia)) as Hm.
    pose proof (Z.div_mod n 10 ltac:(lia)) as Hd.
    assert (decimal_value (String (digit (n mod 10)) acc) 0
            = (n mod 10) * 10 ^ Z.of_nat (String.length acc) + decimal_value acc 0) as Hc.
    { cbn [decimal_value]. rewrite decimal_value_acc, digit_value_digit by assumption.
      lia. }
    destruct (n / 10 =? 0) eqn:Hq.
    + apply Z.eqb_eq in Hq. rewrite Hc. replace (n mod 10) with n by lia. reflexivity.
    + rewrite IH.
      * rewrite Hc. cbn [String.length]. rewrite Nat2Z.inj_succ, Z.pow_succ_r by lia.
        set (p := 10 ^ Z.of_nat (String.length acc)).
        set (q := n / 10) in *. set (m := n mod 10) in *.
        rewrite Hd. ring.
      * set (q := n / 10) in *. set (m := n mod 10) in *.
        set (p := 2 ^ Z.of_nat fuel) in *. lia.
Qed.

Lemma fmt_u_reads_back n : 0 <= n -> decimal_value (fmt_u n) 0 = n.
Proof.
  intros Hn. unfold fmt_u, fmt_unsigned. rewrite decimal_value_digits.
  - cbn [String.length decimal_value]. change (Z.of_nat 0) with 0.
    rewrite Z.pow_0_r. lia.
  - split; [assumption|]. rewrite Nat2Z.inj_succ, Z2Nat.id by apply Z.log2_nonneg.
    destruct (Z.eq_dec n 0) as [->|Hz]; [reflexivity|].
    apply Z.log2_spec. lia.
Qed.

(** ** Lexing and balancing around a number *)

Lemma lex_digits ds acc rest :
  all_digits ds = true ->
  lex (InNumber acc) (ds ++ rest) = lex (InNumber (acc ++ ds)) rest.
Proof.
  revert acc. induction ds as [|d ds IH]; intros acc H; simpl.
  - now rewrite append_empty_r.
  - simpl in H. apply andb_true_iff in H as [Hd Hds]. rewrite Hd.
    rewrite IH by assumption. unfold snoc. now rewrite append_assoc3.
Qed.

Lemma lex_number_end acc c rest :
  is_digit c = false ->
  lex (InNumber acc) (String c rest)
  = option_map (cons (NUM acc)) (lex Between (String c rest)).
Proof.
  intros H. simpl. rewrite H.
  destruct (between_step c) as [[st' ts]|]; [|reflexivity].
  now destruct (lex st' rest).
Qed.

Lemma lex_number n c rest :
  is_number n = true -> is_digit c = false ->
  lex Between (n ++ String c rest)
  = option_map (cons (NUM n)) (lex Between (String c rest)).
Proof.
  intros Hn Hc. destruct n as [|c0 ds]; [discriminate|].
  simpl in Hn. apply andb_true_iff in Hn as [H0 Hds].
  remember (lex Between (String c rest)) as R eqn:HR.
  cbn [append lex]. unfold between_step. rewrite H0.
  rewrite lex_digits by assumption. rewrite lex_number_end by assumption.
  rewrite <- HR. cbn [append]. destruct R; reflexivity.
Qed.

Lemma number_char_plain c :
  starts_number c = true ->
  (c =? dquote)%char = false /\ (c =? "{")%char = false /\ (c =? "}")%char = false.
Proof.
  destruct c as [[|] [|] [|] [|] [|] [|] [|] [|]]; intros H;
    try discriminate H; repeat split; reflexivity.
Qed.

Lemma is_digit_starts c : is_digit c = true -> starts_number c = true.
Proof. unfold starts_number. now intros ->. Qed.

Lemma balanced_digits ds depth rest :
  all_digits ds = true ->
  balanced_from depth false (ds ++ rest) = balanced_from depth false rest.
Proof.
  induction ds as [|d ds IH]; intros H; simpl; [reflexivity|].
  simpl in H. apply andb_true_iff in H as [Hd Hds].
  destruct (number_char_plain d (is_digit_starts d Hd)) as (-> & -> & ->).
  now apply IH.
Qed.

Lemma balanced_number n depth rest :
  is_number n = true ->
  balanced_from depth false (n ++ rest) = balanced_from depth false rest.
Proof.
  destruct n as [|c ds]; [discriminate|]. simpl. intros H.
  apply andb_true_iff in H as [Hc Hds].
  destruct (number_char_plain c Hc) as (-> & -> & ->).
  now apply balanced_digits.
Qed.


(** ** Runs *)

Lemma extend_nil w : extend w [] = w.
Proof. destruct w. unfold extend. simpl. now rewrite app_nil_r. Qed.

Lemma extend_extend w a b : extend (extend w a) b = extend w (a ++ b).
Proof. unfold extend. simpl. now rewrite app_assoc. Qed.

Lemma runs_ret {A} (a : A) w : runs (ret a) w (Ok a) [].
Proof. unfold runs, ret. now rewrite extend_nil. Qed.

Lemma runs_emit e w : runs (emit e) w (Ok tt) [e].
Proof. reflexivity. Qed.

Lemma runs_abort {A} w : runs (@abort A) w Abort [].
Proof. unfold runs, abort. now rewrite extend_nil. Qed.

Lemma runs_undefined {A} w : runs (@undefined A) w Undefined [].
Proof. unfold runs, undefined. now rewrite extend_nil. Qed.

Lemma runs_time w : runs time w (Ok (w_time w)) [].
Proof. unfold runs, time. now rewrite extend_nil. Qed.

Lemma runs_stack w : runs stack w (Ok (w_stack w)) [].
Proof. unfold runs, stack. now rewrite extend_nil. Qed.

Lemma runs_address_of_string w : runs address_of_string w (Ok (w_string w)) [].
Proof. unfold runs, address_of_string. now rewrite extend_nil. Qed.

Lemma runs_bind {A B} (m : M A) (k : A -> M B) w a e1 r e2 :
  runs m w (Ok a) e1 -> runs (k a) (extend w e1) r e2 ->
  runs (bind m k) w r (e1 ++ e2).
Proof.
  unfold runs, bind. intros -> ->. now rewrite extend_extend.
Qed.

Lemma runs_bind_abort {A B} (m : M A) (k : A -> M B) w e1 :
  runs m w Abort e1 -> runs (bind m k) w Abort e1.
Proof. unfold runs, bind. now intros ->. Qed.

Lemma runs_bind_undefined {A B} (m : M A) (k : A -> M B) w e1 :
  runs m w Undefined e1 -> runs (bind m k) w Undefined e1.
Proof. unfold runs, bind. now intros ->. Qed.

Lemma runs_within_string n w :
  n <= MAX_STRING -> runs (within_string n) w (Ok tt) [].
Proof.
  intros H. unfold within_string. apply Z.leb_le in H. rewrite H. apply runs_ret.
Qed.

Lemma runs_unique {A} (m : M A) w r1 e1 r2 e2 :
  runs m w r1 e1 -> runs m w r2 e2 -> r1 = r2 /\ e1 = e2.
Proof.
  unfold runs, extend. intros H1 H2. rewrite H1 in H2. inversion H2 as [[Hr He]].
  split; [reflexivity|]. now apply app_inv_head in He.
Qed.

Ltac run_step :=
  lazymatch goal with
  | |- runs (bind _ _) _ _ _ => eapply runs_bind; [run_step | cbn beta]
  | |- runs (emit _) _ _ _ => apply runs_emit
  | |- runs (ret _) _ _ _ => apply runs_ret
  | |- runs time _ _ _ => apply runs_time
  | |- runs stack _ _ _ => apply runs_stack
  | |- runs address_of_string _ _ _ => apply runs_address_of_string
  end.


Ltac run_eval :=
  cbn [log_fields log_value tag_of va_arg_string va_arg_integer va_arg_double
       va_slot Ascii.eqb Bool.eqb NUL fst snd Nat.ltb Nat.leb
       log_format io_kind log_arguments log_operands app io_name io_port].

Ltac run_all := repeat (run_eval; run_step).


Arguments fmt_u : simpl never.
Arguments fmt_d : simpl never.
Arguments to_uint32 : simpl never.
Arguments to_int : simpl never.

Ltac number_side :=
  first [apply fmt_u_is_number | apply fmt_d_is_number | reflexivity].

Ltac normalize_text :=
  cbn [printed w_time extend]; rewrite ?append_assoc3; cbn [append quoted].

Ltac lex_all :=
  unfold parse_record; cbn; repeat (rewrite lex_number by number_side; cbn).

Ltac balance_all :=
  unfold balanced; cbn; repeat (rewrite balanced_number by number_side; cbn).

(** ** The record of the default log handler *)

Section DefaultLogRecord.
Context {libc : Libc}.

Lemma default_log_handler_runs (f : FILE) (addr : Z) (c : io_call) (w : world) :
  exists evs,
    runs (default_log_handler (Some f) (log_format c) (log_arguments addr c)) w (Ok tt) evs /\
    io_calls evs = [] /\ log_calls evs = [] /\ error_calls evs = [] /\
    parse_record (printed evs) = Some (spec_record (w_time w) addr c) /\
    balanced (printed evs) = true.
Proof.
  destruct c;
    (eexists; split;
     [ unfold default_log_handler; run_all
     | cbn [app io_calls log_calls error_calls flat_map]; repeat split;
       normalize_text; [lex_all | balance_all]; reflexivity ]).
Qed.
End DefaultLogRecord.

Lemma runs_events {A} (m : M A) w r e e' :
  runs m w r e -> e = e' -> runs m w r e'.
Proof. now intros H <-. Qed.

Ltac run_pure :=
  lazymatch goal with
  | |- runs (bind stack _) _ _ _ =>
      eapply runs_bind; [apply runs_stack | rewrite ?extend_nil; cbn beta]
  | |- runs (bind address_of_string _) _ _ _ =>
      eapply runs_bind; [apply runs_address_of_string | rewrite ?extend_nil; cbn beta]
  | |- runs (bind (within_string _) _) _ _ _ =>
      eapply runs_bind; [apply runs_within_string | rewrite ?extend_nil; cbn beta]
  end.

(** ** The switch, selector by selector *)

Ltac bounds :=
  unfold MAX_STRING, sizeof_uint32_t, sizeof_uint16_t, sizeof_uint8_t, UINT16_MAX in *;
  lia.

Ltac call_facts :=
  split; [reflexivity |
  split; [reflexivity |
  split; [cbn [io_extent]; bounds |
  split; [cbn [io_count]; intros n Hn; first [discriminate Hn | injection Hn as <-; bounds] | ]]]].

Ltac run_switch Hlog :=
  eapply runs_events;
  [ repeat first
      [ run_pure
      | eapply runs_bind; [exact Hlog | cbn beta]
      | match goal with
        | |- context [load (Z.to_nat ?n) (store ?d _)] =>
            replace (Z.to_nat n) with (List.length d) by bounds;
            rewrite load_store
        end
      | run_step
      | bounds ]
  | cbn [app]; reflexivity ].

Section Switch.
Context {istream : Type} {I : Input istream}.

Lemma count_bounds (s : istream) :
  read16_is_uint16 ->
  to_uint64 (fst (input_read16 s)) = fst (input_read16 s) /\
  0 <= fst (input_read16 s) <= UINT16_MAX.
Proof.
  intros H. specialize (H s). split; [now apply to_uint64_id | assumption].
Qed.

Lemma iterate_switch_runs (f : io_fuzzer_t) (port : Z) (s : istream) :
  read16_is_uint16 -> read_string_exact ->
  0 <= fst (input_derive_range s 0 11) <= 11 ->
  exists c s',
    spec_catalog (fst (input_derive_range s 0 11)) = Some (io_width c, io_kind c) /\
    io_port c = port /\
    0 <= io_extent c <= MAX_STRING /\
    (forall n, io_count c = Some n -> 0 <= n <= UINT16_MAX) /\
    forall w evs,
      runs (io_fuzzer_log f (log_format c) (log_arguments (w_string w) c)) w (Ok tt) evs ->
      runs (iterate_switch f port s) w (Ok s') (evs ++ [ev_io c]).
Proof.
  intros H16 Hexact Hsel. unfold iterate_switch.
  destruct (input_derive_range s 0 11) as [sel s1]. cbn [fst] in *.
  assert (sel = 0 \/ sel = 1 \/ sel = 2 \/ sel = 3 \/ sel = 4 \/ sel = 5 \/ sel = 6
          \/ sel = 7 \/ sel = 8 \/ sel = 9 \/ sel = 10 \/ sel = 11) as E by lia.
  clear Hsel.
  destruct (count_bounds s1 H16) as [Hc Hr].
  destruct E as [->|[->|[->|[->|[->|[->|[->|[->|[->|[->|[->| ->]]]]]]]]]]].
  - exists (io_read16 port), s1. call_facts. intros w evs Hlog. run_switch Hlog.
  - exists (io_read32 port), s1. call_facts. intros w evs Hlog. run_switch Hlog.
  - exists (io_read8 port), s1. call_facts. intros w evs Hlog. run_switch Hlog.
  - destruct (input_read16 s1) as [r s2]. cbn [fst] in *. rewrite Hc.
    exists (io_read_string16 port r), s2. call_facts.
    intros w evs Hlog. run_switch Hlog.
  - destruct (input_read16 s1) as [r s2]. cbn [fst] in *. rewrite Hc.
    exists (io_read_string32 port r), s2. call_facts.
    intros w evs Hlog. run_switch Hlog.
  - destruct (input_read16 s1) as [r s2]. cbn [fst] in *. rewrite Hc.
    exists (io_read_string8 port r), s2. call_facts.
    intros w evs Hlog. run_switch Hlog.
  - destruct (input_read16 s1) as [r s2].
    exists (io_write16 port (to_uint16 r)), s2. call_facts.
    intros w evs Hlog. run_switch Hlog.
  - destruct (input_read32 s1) as [r s2].
    exists (io_write32 port (to_uint32 r)), s2. call_facts.
    intros w evs Hlog. run_switch Hlog.
  - destruct (input_read8 s1) as [r s2].
    exists (io_write8 port (to_uint8 r)), s2. call_facts.
    intros w evs Hlog. run_switch Hlog.
  - destruct (input_read16 s1) as [r s2]. cbn [fst] in *. rewrite Hc.
    destruct (Hexact s2 r ltac:(lia)) as (H8 & H16' & H32).
    destruct (input_read_string16 s2 r) as [data s3]. cbn [fst] in *.
    exists (io_write_string16 port data r), s3. call_facts.
    intros w evs Hlog. run_switch Hlog.
  - destruct (input_read16 s1) as [r s2]. cbn [fst] in *. rewrite Hc.
    destruct (Hexact s2 r ltac:(lia)) as (H8 & H16' & H32).
    destruct (input_read_string32 s2 r) as [data s3]. cbn [fst] in *.
    exists (io_write_string32 port data r), s3. call_facts.
    intros w evs Hlog. run_switch Hlog.
  - destruct (input_read16 s1) as [r s2]. cbn [fst] in *. rewrite Hc.
    destruct (Hexact s2 r ltac:(lia)) as (H8 & H16' & H32).
    destruct (input_read_string8 s2 r) as [data s3]. cbn [fst] in *.
    exists (io_write_string8 port data r), s3. call_facts.
    intros w evs Hlog. run_switch Hlog.
Qed.
End Switch.

(** ** io_fuzzer_log *)

Lemma io_fuzzer_log_without_handler io_fuzzer format ap w :
  log_handler io_fuzzer = None ->
  runs (io_fuzzer_log io_fuzzer format ap) w (Ok tt) [].
Proof. intros H. unfold io_fuzzer_log. rewrite H. apply runs_ret. Qed.

Lemma io_fuzzer_log_by_default {libc : Libc} io_fuzzer out c w :
  logs_by_default io_fuzzer out ->
  exists evs,
    runs (io_fuzzer_log io_fuzzer (log_format c) (log_arguments (w_string w) c)) w
      (Ok tt)
      (ev_log (Some out) (log_format c) (log_arguments (w_string w) c) :: evs) /\
    io_calls evs = [] /\ log_calls evs = [] /\ error_calls evs = [] /\
    parse_record (printed evs) = Some (spec_record (w_time w) (w_string w) c) /\
    balanced (printed evs) = true.
Proof.
  intros [Hh Hs]. unfold io_fuzzer_log. rewrite Hh, Hs.
  destruct (default_log_handler_runs out (w_string w) c
              (extend w [ev_log (Some out) (log_format c) (log_arguments (w_string w) c)]))
    as (evs & Hrun & Hfacts).
  exists evs. split; [|exact Hfacts].
  change (ev_log (Some out) (log_format c) (log_arguments (w_string w) c) :: evs)
    with ([ev_log (Some out) (log_format c) (log_arguments (w_string w) c)] ++ evs)%list.
  eapply runs_bind; [apply runs_emit | exact Hrun].
Qed.

(** ** The port *)

Section Port.
Context {istream : Type} {I : Input istream}.

Lemma iterate_port_cases io_fuzzer (s : istream) :
  (exists p, forall w, runs (iterate_port io_fuzzer s) w (Ok p) [])
  \/ (forall w, runs (iterate_port io_fuzzer s) w Undefined []).
Proof.
  unfold iterate_port.
  destruct (is_null (ports io_fuzzer) || (num_ports io_fuzzer =? 0)).
  - destruct (input_derive_range s 0 (MAX_PORTS - 1)) as [r s1].
    left. eexists. intros w. apply runs_ret.
  - destruct (input_derive_range s 0 (num_ports io_fuzzer - 1)) as [r s1].
    destruct (array_get (ports io_fuzzer) (to_uint64 r)) as [p|].
    + left. eexists. intros w. apply runs_ret.
    + right. intros w. apply runs_undefined.
Qed.

Lemma iterate_port_any_world io_fuzzer (s : istream) w w' r :
  runs (iterate_port io_fuzzer s) w r [] -> runs (iterate_port io_fuzzer s) w' r [].
Proof.
  intros H. destruct (iterate_port_cases io_fuzzer s) as [[p Hp] | Hu].
  - destruct (runs_unique _ _ _ _ _ _ H (Hp w)) as [-> _]. apply Hp.
  - destruct (runs_unique _ _ _ _ _ _ H (Hu w)) as [-> _]. apply Hu.
Qed.

Lemma iterate_after_port io_fuzzer (s : istream) w port s1 r evs :
  runs (iterate_port io_fuzzer s) w (Ok (port, s1)) [] ->
  runs (iterate_switch io_fuzzer port s1) w r evs ->
  runs (io_fuzzer_iterate io_fuzzer s) w r evs.
Proof.
  intros Hp Hs. unfold io_fuzzer_iterate.
  change evs with ([] ++ evs)%list.
  eapply runs_bind; [exact Hp|]. now rewrite extend_nil.
Qed.

Lemma iterate_port_undefined io_fuzzer (s : istream) w :
  runs (iterate_port io_fuzzer s) w Undefined [] ->
  runs (io_fuzzer_iterate io_fuzzer s) w Undefined [].
Proof. intros H. unfold io_fuzzer_iterate. now apply runs_bind_undefined. Qed.

(** An out-of-range selector reaches the [default] label. *)
Lemma iterate_switch_default io_fuzzer port (s : istream) w :
  ~ 0 <= fst (input_derive_range s 0 11) <= 11 ->
  runs (iterate_switch io_fuzzer port s) w Abort [].
Proof.
  intros H. unfold iterate_switch.
  destruct (input_derive_range s 0 11) as [sel s1]. cbn [fst] in H.
  change (@nil event) with (@nil event ++ (@nil event ++ @nil event))%list.
  eapply runs_bind; [apply runs_stack | rewrite extend_nil; cbn beta].
  eapply runs_bind; [apply runs_address_of_string | rewrite extend_nil; cbn beta].
  repeat match goal with
         | |- context [match ?x with _ => _ end] => is_var x; destruct x
         end;
    first [apply runs_abort | exfalso; lia].
Qed.

End Port.

(** ** Observers over a trace *)

Lemma io_calls_app a b : io_calls (a ++ b) = (io_calls a ++ io_calls b)%list.
Proof. unfold io_calls. apply flat_map_app. Qed.

Lemma log_calls_app a b : log_calls (a ++ b) = (log_calls a ++ log_calls b)%list.
Proof. unfold log_calls. apply flat_map_app. Qed.

Lemma printed_app a b : printed (a ++ b) = (printed a ++ printed b)%string.
Proof.
  induction a as [|e a IH]; [reflexivity|].
  destruct e; cbn [app printed]; try exact IH. now rewrite IH, append_assoc3.
Qed.

Lemma index_of_io_none evs : io_calls evs = [] -> index_of is_io evs = None.
Proof.
  induction evs as [|e evs IH]; [reflexivity|].
  destruct e; cbn [io_calls flat_map app index_of is_io]; try discriminate;
    intros H; fold (io_calls evs) in H; now rewrite IH.
Qed.

Lemma index_of_app_none p a b :
  index_of p a = None ->
  index_of p (a ++ b) = option_map (Nat.add (List.length a)) (index_of p b).
Proof.
  induction a as [|e a IH]; cbn [app index_of List.length].
  - intros _. now destruct (index_of p b).
  - destruct (p e); [discriminate|].
    destruct (index_of p a); [discriminate|]. intros _.
    rewrite IH by reflexivity. now destruct (index_of p b).
Qed.

(** ** One iteration, selector in range *)

Section InRange.
Context {libc : Libc} {istream : Type} {I : Input istream}.

Lemma iterate_in_range (io_fuzzer : io_fuzzer_t) (s : istream)
    (port : Z) (s1 : istream) (out : FILE) :
  read16_is_uint16 -> read_string_exact ->
  0 <= fst (input_derive_range s1 0 11) <= 11 ->
  log_handler io_fuzzer = None \/ logs_by_default io_fuzzer out ->
  exists c s',
    spec_catalog (fst (input_derive_range s1 0 11)) = Some (io_width c, io_kind c) /\
    io_port c = port /\
    0 <= io_extent c <= MAX_STRING /\
    (forall n, io_count c = Some n -> 0 <= n <= UINT16_MAX) /\
    forall w,
      runs (iterate_port io_fuzzer s) w (Ok (port, s1)) [] ->
      exists evs,
        runs (io_fuzzer_iterate io_fuzzer s) w (Ok s') evs /\
        io_calls evs = [c] /\
        iteration_events io_fuzzer out w c evs.
Proof.
  intros H16 Hexact Hsel Hlog.
  destruct (iterate_switch_runs io_fuzzer port s1 H16 Hexact Hsel)
    as (c & s' & Hcat & Hp & Hext & Hcount & Hrun).
  exists c, s'. split; [exact Hcat|]. split; [exact Hp|]. split; [exact Hext|].
  split; [exact Hcount|]. intros w Hport.
  destruct Hlog as [Hnone | Hdef].
  - exists [ev_io c]. split.
    + eapply iterate_after_port; [exact Hport|].
      apply (Hrun w []). now apply io_fuzzer_log_without_handler.
    + split; [reflexivity|]. split; [reflexivity|].
      intros [Hh _]. congruence.
  - destruct (io_fuzzer_log_by_default io_fuzzer out c w Hdef)
      as (record & Hl & Hio & Hlg & _ & Hparse & Hbal).
    eexists. split.
    + eapply iterate_after_port; [exact Hport|]. apply Hrun. exact Hl.
    + split.
      * cbn [io_calls flat_map app]. fold (io_calls (record ++ [ev_io c])).
        now rewrite io_calls_app, Hio.
      * split; [destruct Hdef as [Hh _]; congruence|].
        intros _. exists record. repeat split; assumption.
Qed.

End InRange.

(* ================================================================== *)
(** * The claims *)
(* ================================================================== *)

Section Claims.
Context {libc : Libc} {istream : Type} {I : Input istream}.

(** C1 (as amended).  For every selector value in 0..11 derived from the
    stream, one call to [io_fuzzer_iterate] invokes exactly one hardware
    primitive, whose width and kind are those of the catalog row of the
    selector and whose port is the resolved one.  With the default log
    handler installed on a stream the call produces exactly one log event,
    whose ["function"] field is the name of that primitive; with no log
    handler installed it produces no log event. *)
Theorem iterate_dispatches_one_primitive
    (io_fuzzer : io_fuzzer_t) (s : istream) (w : world)
    (port : Z) (s1 : istream) (selector : Z) (out : FILE) :
  read16_is_uint16 -> read_string_exact ->
  runs (iterate_port io_fuzzer s) w (Ok (port, s1)) [] ->
  fst (input_derive_range s1 0 11) = selector -> 0 <= selector <= 11 ->
  log_handler io_fuzzer = None \/ logs_by_default io_fuzzer out ->
  exists c s' evs,
    runs (io_fuzzer_iterate io_fuzzer s) w (Ok s') evs /\
    io_calls evs = [c] /\
    spec_catalog selector = Some (io_width c, io_kind c) /\
    io_port c = port /\
    (log_handler io_fuzzer = None -> log_calls evs = []) /\
    (logs_by_default io_fuzzer out -> dispatched_and_logged selector evs).
Proof.
  intros H16 Hexact Hport <- Hsel Hlog.
  destruct (iterate_in_range io_fuzzer s port s1 out H16 Hexact Hsel Hlog)
    as (c & s' & Hcat & Hp & _ & _ & Hrun).
  destruct (Hrun w Hport) as (evs & Hevs & Hio & Hnone & Hdef).
  exists c, s', evs. split; [exact Hevs|]. split; [exact Hio|].
  split; [exact Hcat|]. split; [exact Hp|]. split.
  - intros Hn. now rewrite (Hnone Hn).
  - intros Hd. destruct (Hdef Hd) as (record & -> & _ & Hlg & _).
    exists c, (log_format c), (log_arguments (w_string w) c).
    split; [exact Hio|]. split; [exact Hcat|]. split; [|reflexivity].
    cbn [log_calls flat_map app]. fold (log_calls (record ++ [ev_io c])).
    now rewrite log_calls_app, Hlg.
Qed.

(** C2 (as amended).  For every selector value outside 0..11,
    [io_fuzzer_iterate] terminates the process by calling [abort()]
    itself: the run ends aborted without any event, so the fatal error
    reporter is not called, no primitive is invoked and no log record is
    written. *)
Theorem iterate_aborts_out_of_range
    (io_fuzzer : io_fuzzer_t) (s : istream) (w : world)
    (port : Z) (s1 : istream) (selector : Z) :
  runs (iterate_port io_fuzzer s) w (Ok (port, s1)) [] ->
  fst (input_derive_range s1 0 11) = selector -> ~ 0 <= selector <= 11 ->
  exists evs,
    runs (io_fuzzer_iterate io_fuzzer s) w Abort evs /\
    evs = [] /\ error_calls evs = [] /\ io_calls evs = [] /\ log_calls evs = [].
Proof.
  intros Hport <- Hsel. exists []. split; [|repeat split].
  eapply iterate_after_port; [exact Hport|]. now apply iterate_switch_default.
Qed.

(** C3 (as amended).  For every call, under the contract of
    [derive_range] and with [num_ports] the number of entries: the
    resolved port lies in 0..65535; with a null or empty list it is the
    value derived from the stream in that range; with a list of N entries
    an index in 0..N-1 is derived and the resolved port is the entry at
    that index converted to [uint16_t], that is the entry itself, one of
    the N listed values, whenever the entry is a port number in
    0..65535. *)
Theorem iterate_port_resolves (io_fuzzer : io_fuzzer_t) (s : istream) (w : world) :
  derive_range_bounded -> counts_ports io_fuzzer ->
  exists port s1,
    runs (iterate_port io_fuzzer s) w (Ok (port, s1)) [] /\
    0 <= port <= 65535 /\
    (ports io_fuzzer = None \/ num_ports io_fuzzer = 0 ->
     port = fst (input_derive_range s 0 65535)) /\
    (forall l, ports io_fuzzer = Some l -> l <> [] ->
     exists index entry,
       index = fst (input_derive_range s 0 (Z.of_nat (List.length l) - 1)) /\
       0 <= index <= Z.of_nat (List.length l) - 1 /\
       nth_error l (Z.to_nat index) = Some entry /\
       port = to_uint16 entry /\
       (0 <= entry <= 65535 -> port = entry /\ resolved_from_list l port)).
Proof.
  intros Hrange [Hsize Hcount]. unfold iterate_port.
  assert (forall r s1,
            input_derive_range s 0 (MAX_PORTS - 1) = (r, s1) ->
            0 <= r <= MAX_PORTS - 1 ->
            exists port s1',
              runs (ret (to_uint16 r, s1)) w (Ok (port, s1')) [] /\
              0 <= port <= 65535 /\
              port = fst (input_derive_range s 0 65535)) as Hfull.
  { intros r s1 Hr Hb. exists (to_uint16 r), s1. split; [apply runs_ret|].
    split; [apply to_uint16_range|].
    change (MAX_PORTS - 1) with 65535 in Hr. rewrite Hr. cbn [fst].
    apply to_uint16_id. unfold MAX_PORTS, UINT16_MAX in *. lia. }
  pose proof (Hrange s 0 (MAX_PORTS - 1) ltac:(unfold MAX_PORTS; lia)) as Hb.
  destruct (ports io_fuzzer) as [l|] eqn:Hl; cbn [is_null orb].
  - specialize (Hcount l eq_refl).
    destruct (num_ports io_fuzzer =? 0) eqn:Hn.
    + apply Z.eqb_eq in Hn.
      destruct (input_derive_range s 0 (MAX_PORTS - 1)) as [r s1] eqn:Hr.
      destruct (Hfull r s1 eq_refl Hb) as (port & s1' & Hrun & Hp & Hv).
      exists port, s1'. split; [exact Hrun|]. split; [exact Hp|]. split; [now intros _|].
      intros l' [= <-] Hne. destruct l; [congruence|]. cbn [List.length] in Hcount. lia.
    + apply Z.eqb_neq in Hn. rewrite Hcount in *. clear Hb Hfull.
      pose proof (Hrange s 0 (Z.of_nat (List.length l) - 1) ltac:(lia)) as Hb.
      destruct (input_derive_range s 0 (Z.of_nat (List.length l) - 1)) as [r s1] eqn:Hdr.
      cbn [fst] in Hb.
      assert (to_uint64 r = r) as Hr by (unfold to_uint64; apply Z.mod_small; lia).
      rewrite Hr. unfold array_get.
      destruct (0 <=? r) eqn:H0; [|apply Z.leb_gt in H0; lia].
      destruct (nth_error l (Z.to_nat r)) as [entry|] eqn:He.
      * exists (to_uint16 entry), s1. split; [apply runs_ret|].
        split; [apply to_uint16_range|]. split; [intros [H|H]; [discriminate|lia]|].
        intros l' [= <-] _. exists r, entry.
        split; [now rewrite Hdr|]. split; [exact Hb|]. split; [exact He|].
        split; [reflexivity|]. intros Hentry.
        rewrite to_uint16_id by (unfold UINT16_MAX; lia).
        split; [reflexivity|]. exists (Z.to_nat r). split; [lia | assumption].
      * apply nth_error_None in He. lia.
  - destruct (input_derive_range s 0 (MAX_PORTS - 1)) as [r s1] eqn:Hr.
    destruct (Hfull r s1 eq_refl Hb) as (port & s1' & Hrun & Hp & Hv).
    exists port, s1'. split; [exact Hrun|]. split; [exact Hp|]. split; [now intros _|].
    intros l' Hl'. discriminate Hl'.
Qed.

(** C4 (as amended).  For every iteration and every catalog operation,
    with the default log handler installed, the log event describing the
    primitive invocation is emitted, and its whole record printed, before
    the primitive is invoked: the log call is the first event of the
    iteration, the events of the record follow, and the invocation is the
    last one. *)
Theorem iterate_logs_before_invoking
    (io_fuzzer : io_fuzzer_t) (s : istream) (w : world)
    (port : Z) (s1 : istream) (selector : Z) (out : FILE) :
  read16_is_uint16 -> read_string_exact ->
  runs (iterate_port io_fuzzer s) w (Ok (port, s1)) [] ->
  fst (input_derive_range s1 0 11) = selector -> 0 <= selector <= 11 ->
  logs_by_default io_fuzzer out ->
  exists c s' record evs,
    runs (io_fuzzer_iterate io_fuzzer s) w (Ok s') evs /\
    evs = ev_log (Some out) (log_format c) (log_arguments (w_string w) c)
            :: (record ++ [ev_io c])%list /\
    io_calls record = [] /\
    parse_record (printed record) = Some (spec_record (w_time w) (w_string w) c) /\
    index_of is_log evs = Some O /\
    index_of is_io evs = Some (S (List.length record)).
Proof.
  intros H16 Hexact Hport <- Hsel Hlog.
  destruct (iterate_in_range io_fuzzer s port s1 out H16 Hexact Hsel (or_intror Hlog))
    as (c & s' & _ & _ & _ & _ & Hrun).
  destruct (Hrun w Hport) as (evs & Hevs & _ & _ & Hdef).
  destruct (Hdef Hlog) as (record & -> & Hio & _ & Hparse & _).
  exists c, s', record. eexists. split; [exact Hevs|]. split; [reflexivity|].
  split; [exact Hio|]. split; [exact Hparse|]. split; [reflexivity|].
  cbn [index_of is_io]. rewrite index_of_app_none by now apply index_of_io_none.
  cbn [index_of is_io option_map]. now rewrite Nat.add_0_r.
Qed.

(** C5.  For any two runs of [io_fuzzer_iterate] on the same instance and
    the same stream, whatever the clock, the content of the stack the
    scratch buffer is allocated on, its address and the events so far:
    both runs end the same way and invoke the same primitive on the same
    port with the same operands, and leave the same stream. *)
Theorem iterate_is_deterministic
    (io_fuzzer : io_fuzzer_t) (s : istream) (out : FILE)
    (w1 w2 : world) (r1 r2 : result istream) (evs1 evs2 : list event) :
  read16_is_uint16 -> read_string_exact ->
  log_handler io_fuzzer = None \/ logs_by_default io_fuzzer out ->
  runs (io_fuzzer_iterate io_fuzzer s) w1 r1 evs1 ->
  runs (io_fuzzer_iterate io_fuzzer s) w2 r2 evs2 ->
  r1 = r2 /\ io_calls evs1 = io_calls evs2.
Proof.
  intros H16 Hexact Hlog H1 H2.
  destruct (iterate_port_cases io_fuzzer s) as [[[port s1] Hp] | Hu].
  - destruct (Z_le_dec 0 (fst (input_derive_range s1 0 11))) as [Hlo|Hlo];
      [destruct (Z_le_dec (fst (input_derive_range s1 0 11)) 11) as [Hhi|Hhi]|].
    + destruct (iterate_in_range io_fuzzer s port s1 out H16 Hexact (conj Hlo Hhi) Hlog)
        as (c & s' & _ & _ & _ & _ & Hrun).
      destruct (Hrun w1 (Hp w1)) as (e1 & He1 & Hio1 & _).
      destruct (Hrun w2 (Hp w2)) as (e2 & He2 & Hio2 & _).
      destruct (runs_unique _ _ _ _ _ _ H1 He1) as [-> ->].
      destruct (runs_unique _ _ _ _ _ _ H2 He2) as [-> ->].
      split; [reflexivity | congruence].
    + assert (forall w, runs (io_fuzzer_iterate io_fuzzer s) w Abort []) as Ha.
      { intros w. eapply iterate_after_port; [apply Hp|].
        apply iterate_switch_default. lia. }
      destruct (runs_unique _ _ _ _ _ _ H1 (Ha w1)) as [-> ->].
      destruct (runs_unique _ _ _ _ _ _ H2 (Ha w2)) as [-> ->]. now split.
    + assert (forall w, runs (io_fuzzer_iterate io_fuzzer s) w Abort []) as Ha.
      { intros w. eapply iterate_after_port; [apply Hp|].
        apply iterate_switch_default. lia. }
      destruct (runs_unique _ _ _ _ _ _ H1 (Ha w1)) as [-> ->].
      destruct (runs_unique _ _ _ _ _ _ H2 (Ha w2)) as [-> ->]. now split.
  - pose proof (fun w => iterate_port_undefined io_fuzzer s w (Hu w)) as Ha.
    destruct (runs_unique _ _ _ _ _ _ H1 (Ha w1)) as [-> ->].
    destruct (runs_unique _ _ _ _ _ _ H2 (Ha w2)) as [-> ->]. now split.
Qed.

(** C6.  Every log record [io_fuzzer_iterate] produces through the
    default log handler is one well-formed record with balanced
    delimiters: it reads back as the fields ["time"], ["function"],
    ["port"], then ["value"], or ["string"] and ["count"], in this order,
    the time as the decimal of [%d], the function as the quoted string
    of its tag [s], and every other field as the unsigned decimal, which
    reads back as the 32-bit value, of its tag [u]. *)
Theorem log_record_is_well_formed
    (io_fuzzer : io_fuzzer_t) (s : istream) (w : world)
    (port : Z) (s1 : istream) (selector : Z) (out : FILE) :
  read16_is_uint16 -> read_string_exact ->
  runs (iterate_port io_fuzzer s) w (Ok (port, s1)) [] ->
  fst (input_derive_range s1 0 11) = selector -> 0 <= selector <= 11 ->
  logs_by_default io_fuzzer out ->
  exists c s' evs,
    runs (io_fuzzer_iterate io_fuzzer s) w (Ok s') evs /\
    io_calls evs = [c] /\
    parse_record (printed evs) = Some (spec_record (w_time w) (w_string w) c) /\
    balanced (printed evs) = true /\
    map fst (spec_record (w_time w) (w_string w) c)
    = ("time" :: "function" :: "port"
         :: match io_kind c with
            | scalar_read => []
            | scalar_write => ["value"]
            | string_read | string_write => ["string"; "count"]
            end)%list /\
    forall key digits,
      In (key, number digits) (tl (spec_record (w_time w) (w_string w) c)) ->
      exists v, 0 <= v < 2 ^ 32 /\ digits = fmt_u v /\ decimal_value digits 0 = v.
Proof.
  intros H16 Hexact Hport <- Hsel Hlog.
  destruct (iterate_in_range io_fuzzer s port s1 out H16 Hexact Hsel (or_intror Hlog))
    as (c & s' & _ & _ & _ & _ & Hrun).
  destruct (Hrun w Hport) as (evs & Hevs & Hio & _ & Hdef).
  destruct (Hdef Hlog) as (record & Heq & _ & _ & Hparse & Hbal).
  exists c, s', evs. split; [exact Hevs|]. split; [exact Hio|].
  assert (printed evs = printed record) as ->.
  { rewrite Heq. cbn [printed]. rewrite printed_app. cbn [printed].
    apply append_empty_r. }
  split; [exact Hparse|]. split; [exact Hbal|]. split; [now destruct c|].
  intros key digits Hin.
  assert (forall x, exists v,
             0 <= v < 2 ^ 32 /\ fmt_u (to_uint32 x) = fmt_u v /\
             decimal_value (fmt_u (to_uint32 x)) 0 = v) as Hu.
  { intros x. exists (to_uint32 x).
    assert (0 <= to_uint32 x < 2 ^ 32) as Hx
      by (unfold to_uint32; apply Z.mod_pos_bound; lia).
    split; [exact Hx|]. split; [reflexivity|]. apply fmt_u_reads_back. lia. }
  destruct c; cbn [spec_record spec_operands tl In] in Hin;
    repeat match goal with
           | H : _ \/ _ |- _ => destruct H as [H | H]
           | H : (_, _) = (_, _) |- _ => injection H as _ <-
           | H : False |- _ => contradiction
           end;
    try discriminate; apply Hu.
Qed.

(** C9.  For every string operation the count derived by the 16-bit read
    is at most 65535, and the count times the element width in bytes (1,
    2 or 4) does not exceed the capacity of the scratch buffer, 65535 x 4
    bytes: the iteration returns, no access of the engine or of the
    primitive leaving the buffer. *)
Theorem string_operations_stay_within_buffer
    (io_fuzzer : io_fuzzer_t) (s : istream) (w : world)
    (port : Z) (s1 : istream) (selector : Z) (out : FILE) :
  read16_is_uint16 -> read_string_exact ->
  runs (iterate_port io_fuzzer s) w (Ok (port, s1)) [] ->
  fst (input_derive_range s1 0 11) = selector -> 0 <= selector <= 11 ->
  log_handler io_fuzzer = None \/ logs_by_default io_fuzzer out ->
  exists c s' evs,
    runs (io_fuzzer_iterate io_fuzzer s) w (Ok s') evs /\
    io_calls evs = [c] /\
    spec_catalog selector = Some (io_width c, io_kind c) /\
    forall count, io_count c = Some count ->
      0 <= count <= 65535 /\
      io_extent c = count * (io_width c / 8) /\
      count * (io_width c / 8) <= MAX_STRING /\
      MAX_STRING = 65535 * 4.
Proof.
  intros H16 Hexact Hport <- Hsel Hlog.
  destruct (iterate_in_range io_fuzzer s port s1 out H16 Hexact Hsel Hlog)
    as (c & s' & Hcat & _ & Hext & Hcount & Hrun).
  destruct (Hrun w Hport) as (evs & Hevs & Hio & _).
  exists c, s', evs. split; [exact Hevs|]. split; [exact Hio|]. split; [exact Hcat|].
  intros count Hc. specialize (Hcount count Hc).
  split; [exact Hcount|].
  assert (io_extent c = count * (io_width c / 8)) as He.
  { destruct c; try discriminate Hc; injection Hc as <-;
      cbn [io_extent io_width];
      unfold sizeof_uint8_t, sizeof_uint16_t, sizeof_uint32_t;
      [change (16 / 8) with 2 | change (32 / 8) with 4 | change (8 / 8) with 1
      |change (16 / 8) with 2 | change (32 / 8) with 4 | change (8 / 8) with 1]; lia. }
  split; [exact He|]. split; [rewrite <- He; apply Hext | reflexivity].
Qed.

End Claims.

(** ** The handlers of main.c *)

Section Handlers.
Context {libc : Libc}.

Lemma tag_of_unrecognized c : recognized c = false -> tag_of c = None.
Proof.
  unfold recognized, tag_of. cbn [existsb].
  repeat match goal with
         | |- context [(c =? ?x)%char] => destruct (c =? x)%char
         end; cbn [orb]; intros H; first [discriminate H | reflexivity].
Qed.

Lemma log_value_recognized stream c v ap w :
  recognized c = true -> value_fits c v = true ->
  exists text, runs (log_value stream c (v :: ap)) w (Ok ap) [ev_fprintf stream text].
Proof.
  intros Hc Hv. unfold recognized in Hc.
  apply existsb_exists in Hc as (x & Hin & Hx). apply Ascii.eqb_eq in Hx. subst x.
  cbn [In] in Hin.
  repeat (destruct Hin as [<- | Hin]); try contradiction;
    unfold log_value; cbn [tag_of Ascii.eqb Bool.eqb];
    unfold value_fits in Hv; cbn [Ascii.eqb Bool.eqb] in Hv;
    destruct v; try discriminate Hv;
    cbn [va_arg_integer va_arg_string va_arg_double va_slot];
    eexists;
    (eapply runs_events;
     [ eapply runs_bind; [apply runs_ret | rewrite extend_nil; cbn beta];
       eapply runs_bind; [apply runs_emit | cbn beta]; apply runs_ret
     | reflexivity ]).
Qed.

Lemma log_fields_aborts stream format : forall i ap w,
  has_unrecognized_tag format = true -> arguments_fit format ap = true ->
  exists evs, runs (log_fields stream i format ap) w Abort evs.
Proof.
  induction format as [|c format IH]; intros i ap w Hbad Hfit; [discriminate Hbad|].
  cbn [has_unrecognized_tag arguments_fit log_fields] in *.
  destruct (c =? NUL)%char; [discriminate Hbad|].
  destruct ap as [|[z|key|a|b] ap]; try discriminate Hfit.
  cbn [va_arg_string].
  assert (exists pre, runs (if (0 <? i)%nat then emit (ev_fprintf stream ", ") else ret tt)
                        w (Ok tt) pre) as [pre Hpre].
  { destruct (0 <? i)%nat; eexists; [apply runs_emit | apply runs_ret]. }
  destruct (recognized c) eqn:Hc.
  - destruct ap as [|v ap]; [discriminate Hfit|].
    apply andb_true_iff in Hfit as [Hv Hfit]. cbn [negb orb] in Hbad.
    destruct (log_value_recognized stream c v ap
                (extend (extend w pre) [ev_fprintf stream (quoted key ++ ": ")%string])
                Hc Hv) as [text Hval].
    destruct (IH (S i) ap
                (extend (extend (extend w pre)
                           [ev_fprintf stream (quoted key ++ ": ")%string])
                   [ev_fprintf stream text]) Hbad Hfit) as [evs Hevs].
    eexists.
    eapply runs_bind; [exact Hpre | cbn beta].
    eapply runs_bind; [apply runs_ret | rewrite extend_nil; cbn beta].
    cbn [fst snd].
    eapply runs_bind; [apply runs_emit | cbn beta].
    eapply runs_bind; [exact Hval | cbn beta]. exact Hevs.
  - eexists.
    eapply runs_bind; [exact Hpre | cbn beta].
    eapply runs_bind; [apply runs_ret | rewrite extend_nil; cbn beta].
    cbn [fst snd].
    eapply runs_bind; [apply runs_emit | cbn beta].
    apply runs_bind_abort. unfold log_value. rewrite (tag_of_unrecognized c Hc).
    apply runs_abort.
Qed.

(** C7.  For every log call whose format holds a type tag outside the
    set c, d, f, o, p, q, s, u, x, z, the arguments in front of that tag
    being those the format announces, the default log handler ends in
    [abort()]: it does not return to skip the value or to finish the
    record. *)
Theorem default_log_handler_aborts_on_unrecognized_tag
    (stream : FILE) (format : string) (ap : va_list) (w : world) :
  has_unrecognized_tag format = true -> arguments_fit format ap = true ->
  exists evs, runs (default_log_handler (Some stream) format ap) w Abort evs.
Proof.
  intros Hbad Hfit. unfold default_log_handler.
  destruct (log_fields_aborts stream format 0 ap
              (extend (extend (extend (extend w [ev_flockfile stream])
                                 [ev_fprintf stream "{ "]) [])
                 [ev_fprintf stream
                    (quoted "time" ++ ": "
                     ++ fmt_d (to_int (to_uint32 (w_time w))) ++ ",")%string])
              Hbad Hfit) as [evs Hevs].
  eexists.
  eapply runs_bind; [apply runs_emit | cbn beta].
  eapply runs_bind; [apply runs_emit | cbn beta].
  eapply runs_bind; [apply runs_time | cbn beta].
  eapply runs_bind; [apply runs_emit | cbn beta].
  apply runs_bind_abort. exact Hevs.
Qed.

(** C8 (as amended).  With no error handler installed, the state the
    library starts in, [io_fuzzer_error] reports nothing and returns, and
    [io_fuzzer_create] returns [NULL] to its caller when the allocation
    fails.  With [default_error_handler] installed, as [main] does before
    it creates the instance, every condition reported through
    [io_fuzzer_error] is printed on [stderr] and followed by [abort()],
    and [io_fuzzer_create] does not return from a failed allocation. *)
Theorem error_reporting_follows_the_installed_handler
    (io_fuzzer : option io_fuzzer_t) (status error errno : Z) (format : string)
    (ap : va_list) (ports : option (list Z)) (num_ports : Z) (w : world) :
  runs (io_fuzzer_error (mk_globals None) io_fuzzer status error format ap)
    w (Ok tt) [] /\
  runs (io_fuzzer_create (mk_globals None) false errno ports num_ports)
    w (Ok None) [] /\
  runs (io_fuzzer_error (mk_globals (Some default_error_handler)) io_fuzzer
          status error format ap)
    w Abort (report_events status error format ap) /\
  runs (io_fuzzer_create (mk_globals (Some default_error_handler)) false errno
          ports num_ports)
    w Abort (report_events 0 errno "io_fuzzer_create" []).
Proof.
  assert (forall o st e fmt args w',
    runs (io_fuzzer_error (mk_globals (Some default_error_handler)) o st e fmt args)
      w' Abort (report_events st e fmt args)) as Hreport.
  { intros o st e fmt args w'. unfold io_fuzzer_error, default_error_handler.
    cbn [error_handler].
    eapply runs_events.
    - eapply runs_bind; [apply runs_emit | cbn beta].
      eapply runs_bind; [apply runs_emit | cbn beta].
      eapply runs_bind; [apply runs_emit | cbn beta].
      eapply runs_bind.
      + instantiate (2 := tt).
        instantiate (1 := if e =? 0 then []
                          else [ev_fprintf stderr
                                  (": " ++ strerror e ++ String LF EmptyString)%string]).
        destruct (e =? 0); [apply runs_ret | apply runs_emit].
      + cbn beta. eapply runs_bind; [apply runs_emit | cbn beta]. apply runs_abort.
    - unfold report_events. cbn [app]. reflexivity. }
  repeat split.
  - apply runs_ret.
  - unfold io_fuzzer_create. change (@nil event) with (@nil event ++ @nil event)%list.
    eapply runs_bind; [apply runs_ret | rewrite extend_nil; apply runs_ret].
  - apply Hreport.
  - unfold io_fuzzer_create. apply runs_bind_abort. apply Hreport.
Qed.

End Handlers.

(** C10.  Each setter returns exactly the previously installed value and
    installs the new one; [io_fuzzer_set_log_handler] and
    [io_fuzzer_set_log_stream] leave the port list, the number of ports
    and the field of the other setter unchanged, and
    [io_fuzzer_set_error_handler], which receives no instance, changes
    the file-scope variable only. *)
Theorem setters_return_previous_and_frame
    (g : globals) (io_fuzzer : io_fuzzer_t)
    (eh : option io_fuzzer_error_handler_t)
    (lh : option io_fuzzer_log_handler_t) (ls : option FILE) :
  (fst (io_fuzzer_set_error_handler g eh) = error_handler g /\
   error_handler (snd (io_fuzzer_set_error_handler g eh)) = eh) /\
  (fst (io_fuzzer_set_log_handler io_fuzzer lh) = log_handler io_fuzzer /\
   log_handler (snd (io_fuzzer_set_log_handler io_fuzzer lh)) = lh /\
   ports (snd (io_fuzzer_set_log_handler io_fuzzer lh)) = ports io_fuzzer /\
   num_ports (snd (io_fuzzer_set_log_handler io_fuzzer lh)) = num_ports io_fuzzer /\
   log_stream (snd (io_fuzzer_set_log_handler io_fuzzer lh)) = log_stream io_fuzzer) /\
  (fst (io_fuzzer_set_log_stream io_fuzzer ls) = log_stream io_fuzzer /\
   log_stream (snd (io_fuzzer_set_log_stream io_fuzzer ls)) = ls /\
   ports (snd (io_fuzzer_set_log_stream io_fuzzer ls)) = ports io_fuzzer /\
   num_ports (snd (io_fuzzer_set_log_stream io_fuzzer ls)) = num_ports io_fuzzer /\
   log_handler (snd (io_fuzzer_set_log_stream io_fuzzer ls)) = log_handler io_fuzzer).
Proof. repeat split. Qed.

(* ================================================================== *)
(** * Concrete runs *)
(* ================================================================== *)

(** The stream of section 8: port index 0 into the list [0x60], selector
    8, value [0x41]. *)
Lemma iterate_dispatches_one_primitive_witness :
  exists c s' evs,
    runs (@io_fuzzer_iterate _ byte_input fuzzer_0x60 [0; 0; 0; 0; 8; 0; 0; 0; 65])
      world_0 (Ok s') evs /\
    io_calls evs = [c] /\
    spec_catalog 8 = Some (io_width c, io_kind c) /\
    io_port c = 96 /\
    (log_handler fuzzer_0x60 = None -> log_calls evs = []) /\
    (@logs_by_default example_libc fuzzer_0x60 stdout -> dispatched_and_logged 8 evs).
Proof.
  apply (@iterate_dispatches_one_primitive example_libc _ byte_input fuzzer_0x60
           [0; 0; 0; 0; 8; 0; 0; 0; 65] world_0 96 [8; 0; 0; 0; 65] 8 stdout).
  - apply byte_input_read16_is_uint16.
  - apply byte_input_read_string_exact.
  - reflexivity.
  - reflexivity.
  - lia.
  - right. split; reflexivity.
Defined.

(** C1 as stated fails on an instance without a log handler, such as the
    one [io_fuzzer_create] returns: selector 0 invokes [io_read16] and no
    log event is produced. *)
Lemma iterate_without_handler_produces_no_log :
  run (io_fuzzer_create initial_globals true 0 None 0) world_0
    = (Ok (Some silent_fuzzer), []) /\
  run (@io_fuzzer_iterate _ byte_input silent_fuzzer [0; 0; 0; 0; 0; 0; 0; 0]) world_0
    = (Ok [], [ev_io (io_read16 0)]) /\
  ~ dispatched_and_logged 0 [ev_io (io_read16 0)].
Proof.
  split; [reflexivity|]. split; [reflexivity|].
  intros (c & format & ap & _ & _ & Hlog & _). discriminate Hlog.
Qed.

(** Selector 12, from an engine that does not bound it. *)
Lemma iterate_aborts_out_of_range_witness :
  exists evs,
    runs (@io_fuzzer_iterate _ raw_input fuzzer_0x60 [0; 12]) world_0 Abort evs /\
    evs = [] /\ error_calls evs = [] /\ io_calls evs = [] /\ log_calls evs = [].
Proof.
  apply (@iterate_aborts_out_of_range _ raw_input fuzzer_0x60 [0; 12] world_0 96 [12] 12).
  - reflexivity.
  - reflexivity.
  - lia.
Defined.

(** C2 as stated fails at selector 12: the process is terminated, but not
    through the fatal error reporter, which is never called. *)
Lemma iterate_aborts_without_report :
  run (@io_fuzzer_iterate _ raw_input fuzzer_0x60 [0; 12]) world_0 = (Abort, []) /\
  ~ fatal_via_reporter (@Abort (list Z)) [].
Proof.
  split; [reflexivity|]. intros (_ & Hreport & _). now apply Hreport.
Qed.

Lemma iterate_port_resolves_witness :
  exists port s1,
    runs (@iterate_port _ byte_input fuzzer_0x60 [0; 0; 0; 0]) world_0 (Ok (port, s1)) [] /\
    0 <= port <= 65535 /\
    (ports fuzzer_0x60 = None \/ num_ports fuzzer_0x60 = 0 ->
     port = fst (@input_derive_range _ byte_input [0; 0; 0; 0] 0 65535)) /\
    (forall l, ports fuzzer_0x60 = Some l -> l <> [] ->
     exists index entry,
       index = fst (@input_derive_range _ byte_input [0; 0; 0; 0] 0
                      (Z.of_nat (List.length l) - 1)) /\
       0 <= index <= Z.of_nat (List.length l) - 1 /\
       nth_error l (Z.to_nat index) = Some entry /\
       port = to_uint16 entry /\
       (0 <= entry <= 65535 -> port = entry /\ resolved_from_list l port)).
Proof.
  apply (@iterate_port_resolves _ byte_input fuzzer_0x60 [0; 0; 0; 0] world_0).
  - apply byte_input_derive_range_bounded.
  - split; [simpl; lia|]. intros l [= <-]. reflexivity.
Defined.

(** C3 as stated fails on a list with an entry outside 0..65535, which
    the [int] of [ports] admits: the entry 65536 resolves to port 0, which
    is not in the list. *)
Lemma iterate_port_truncates_entry :
  counts_ports fuzzer_65536 /\
  run (@iterate_port _ byte_input fuzzer_65536 [0; 0; 0; 0]) world_0 = (Ok (0, []), []) /\
  ~ resolved_from_list [65536] 0.
Proof.
  split; [split; [simpl; lia | intros l [= <-]; reflexivity]|].
  split; [reflexivity|].
  intros ([|[|i]] & Hlt & Hnth); cbn in *; [discriminate | lia | lia].
Qed.

Lemma iterate_logs_before_invoking_witness :
  exists c s' record evs,
    runs (@io_fuzzer_iterate _ byte_input fuzzer_0x60 [0; 0; 0; 0; 8; 0; 0; 0; 65])
      world_0 (Ok s') evs /\
    evs = ev_log (Some stdout) (log_format c) (log_arguments (w_string world_0) c)
            :: (record ++ [ev_io c])%list /\
    io_calls record = [] /\
    parse_record (printed record)
    = Some (spec_record (w_time world_0) (w_string world_0) c) /\
    index_of is_log evs = Some O /\
    index_of is_io evs = Some (S (List.length record)).
Proof.
  apply (@iterate_logs_before_invoking example_libc _ byte_input fuzzer_0x60
           [0; 0; 0; 0; 8; 0; 0; 0; 65] world_0 96 [8; 0; 0; 0; 65] 8 stdout).
  - apply byte_input_read16_is_uint16.
  - apply byte_input_read_string_exact.
  - reflexivity.
  - reflexivity.
  - lia.
  - split; reflexivity.
Defined.

(** C4 as stated fails on the run of section 8: the log call is event 0
    of the iteration and the write to port [0x60] is event 16, the last
    one. *)
Lemma iterate_logs_first :
  let evs :=
    snd (run (@io_fuzzer_iterate _ byte_input fuzzer_0x60 [0; 0; 0; 0; 8; 0; 0; 0; 65])
           world_0) in
  index_of is_log evs = Some 0%nat /\
  index_of is_io evs = Some 16%nat /\
  nth_error evs 16 = Some (ev_io (io_write8 96 65)) /\
  ~ logged_after_invoked evs.
Proof.
  cbv zeta. split; [reflexivity|]. split; [reflexivity|]. split; [reflexivity|].
  intros H. specialize (H 0%nat 16%nat eq_refl eq_refl). lia.
Qed.

(** Two runs of a string write, in two worlds. *)
Lemma iterate_is_deterministic_witness :
  fst (@io_fuzzer_iterate _ byte_input fuzzer_0x60 write_string16_stream world_0)
  = fst (@io_fuzzer_iterate _ byte_input fuzzer_0x60 write_string16_stream world_1) /\
  io_calls (w_trace (snd (@io_fuzzer_iterate _ byte_input fuzzer_0x60
                            write_string16_stream world_0)))
  = io_calls (w_trace (snd (@io_fuzzer_iterate _ byte_input fuzzer_0x60
                              write_string16_stream world_1))).
Proof.
  apply (@iterate_is_deterministic example_libc _ byte_input fuzzer_0x60
           write_string16_stream stdout world_0 world_1).
  - apply byte_input_read16_is_uint16.
  - apply byte_input_read_string_exact.
  - right. split; reflexivity.
  - reflexivity.
  - reflexivity.
Defined.

Lemma log_record_is_well_formed_witness :
  exists c s' evs,
    runs (@io_fuzzer_iterate _ byte_input fuzzer_0x60 write_string16_stream)
      world_0 (Ok s') evs /\
    io_calls evs = [c] /\
    parse_record (printed evs)
    = Some (spec_record (w_time world_0) (w_string world_0) c) /\
    balanced (printed evs) = true /\
    map fst (spec_record (w_time world_0) (w_string world_0) c)
    = ("time" :: "function" :: "port"
         :: match io_kind c with
            | scalar_read => []
            | scalar_write => ["value"]
            | string_read | string_write => ["string"; "count"]
            end)%list /\
    forall key digits,
      In (key, number digits)
        (tl (spec_record (w_time world_0) (w_string world_0) c)) ->
      exists v, 0 <= v < 2 ^ 32 /\ digits = fmt_u v /\ decimal_value digits 0 = v.
Proof.
  apply (@log_record_is_well_formed example_libc _ byte_input fuzzer_0x60
           write_string16_stream world_0 96 [9; 0; 0; 0; 2; 0; 1; 2; 3; 4] 9 stdout).
  - apply byte_input_read16_is_uint16.
  - apply byte_input_read_string_exact.
  - reflexivity.
  - reflexivity.
  - lia.
  - split; reflexivity.
Defined.

(** The tag [k] after two recognised ones. *)
Lemma default_log_handler_aborts_on_unrecognized_tag_witness :
  exists evs,
    runs (@default_log_handler example_libc (Some stdout) "suk"
            [va_str "function"; va_str "io_read8"; va_str "port"; va_int 96;
             va_str "kind"])
      world_0 Abort evs.
Proof.
  apply (@default_log_handler_aborts_on_unrecognized_tag example_libc stdout "suk").
  - reflexivity.
  - reflexivity.
Defined.

(** C8 as stated fails in the state the library starts in: a failed
    allocation is reported to no one and [io_fuzzer_create] returns
    [NULL]. *)
Lemma create_continues_without_handler :
  error_handler initial_globals = None /\
  run (io_fuzzer_create initial_globals false 12 (Some [96]) 1) world_0 = (Ok None, []) /\
  ~ reported_and_terminated (@Ok (option io_fuzzer_t) None) [].
Proof.
  split; [reflexivity|]. split; [reflexivity|]. intros [H _]. discriminate H.
Qed.

Lemma string_operations_stay_within_buffer_witness :
  exists c s' evs,
    runs (@io_fuzzer_iterate _ byte_input fuzzer_0x60 write_string16_stream)
      world_0 (Ok s') evs /\
    io_calls evs = [c] /\
    spec_catalog 9 = Some (io_width c, io_kind c) /\
    forall count, io_count c = Some count ->
      0 <= count <= 65535 /\
      io_extent c = count * (io_width c / 8) /\
      count * (io_width c / 8) <= MAX_STRING /\
      MAX_STRING = 65535 * 4.
Proof.
  apply (@string_operations_stay_within_buffer example_libc _ byte_input fuzzer_0x60
           write_string16_stream world_0 96 [9; 0; 0; 0; 2; 0; 1; 2; 3; 4] 9 stdout).
  - apply byte_input_read16_is_uint16.
  - apply byte_input_read_string_exact.
  - reflexivity.
  - reflexivity.
  - lia.
  - right. split; reflexivity.
Defined.

(** ** The scenarios of section 8 of the specification *)

(** Selector 8, port index 0 into the list [0x60], value [0x41]: a write
    of 65 to port 96, and the record as the code prints it. *)
Example scenario_write8 :
  run (@io_fuzzer_iterate _ byte_input silent_fuzzer [96; 0; 0; 0; 8; 0; 0; 0; 65])
    world_0
  = (Ok [], [ev_io (io_write8 96 65)]) /\
  printed (snd (run (@io_fuzzer_iterate _ byte_input fuzzer_0x60
                       [0; 0; 0; 0; 8; 0; 0; 0; 65]) world_0))
  = ("{ " ++ quoted "time" ++ ": 1700000000," ++ quoted "function" ++ ": "
     ++ quoted "io_write8" ++ ", " ++ quoted "port" ++ ": 96, "
     ++ quoted "value" ++ ": 65 }" ++ String LF EmptyString)%string.
Proof. split; reflexivity. Qed.

(** Selector 4, count 3: [io_read_string32] on three elements. *)
Example scenario_read_string32 :
  io_calls (snd (run (@io_fuzzer_iterate _ byte_input fuzzer_0x60
                        [0; 0; 0; 0; 4; 0; 0; 0; 3; 0]) world_0))
  = [io_read_string32 96 3] /\
  log_field "count"
    (log_arguments (w_string world_0) (io_read_string32 96 3)) = Some (va_int 3).
Proof. split; reflexivity. Qed.

(** A string write of no element still invokes the primitive and logs. *)
Example scenario_count_0 :
  io_calls (snd (run (@io_fuzzer_iterate _ byte_input fuzzer_0x60
                        [0; 0; 0; 0; 11; 0; 0; 0; 0; 0]) world_0))
  = [io_write_string8 96 [] 0] /\
  parse_record
    (printed (snd (run (@io_fuzzer_iterate _ byte_input fuzzer_0x60
                          [0; 0; 0; 0; 11; 0; 0; 0; 0; 0]) world_0)))
  = Some [("time", number "1700000000"); ("function", text "io_write_string8");
          ("port", number "96"); ("string", number "4294959104");
          ("count", number "0")].
Proof. split; reflexivity. Qed.

(** The conversions of [printf] on some values. *)
Example fmt_examples :
  fmt_u 0 = "0" /\ fmt_u 65535 = "65535" /\ fmt_u 4294967295 = "4294967295" /\
  fmt_x 255 = "ff" /\ fmt_o 8 = "10" /\ fmt_d (-5) = "-5" /\
  fmt_d (to_int (to_uint32 4294967295)) = "-1" /\ fmt_c 65 = "A".
Proof. repeat split. Qed.


(* ================================================================== *)
(** * More of main.c: random_buf *)
(* ================================================================== *)

Lemma random_byte_low r :
  Z.land (Z.shiftr (to_uint32 r) (8 * Z.of_nat 0)) 255 = r mod 256.
Proof.
  change (8 * Z.of_nat 0) with 0. rewrite Z.shiftr_0_r.
  change 255 with (Z.ones 8). rewrite Z.land_ones by lia.
  unfold to_uint32. change (2 ^ 32) with 4294967296. change (2 ^ 8) with 256.
  Z.div_mod_to_equations. lia.
Qed.

Lemma random_byte_high r :
  Z.land (Z.shiftr (to_uint32 r) (8 * Z.of_nat 1)) 255 = (r / 256) mod 256.
Proof.
  change (8 * Z.of_nat 1) with 8. rewrite Z.shiftr_div_pow2 by lia.
  change 255 with (Z.ones 8). rewrite Z.land_ones by lia.
  unfold to_uint32. change (2 ^ 32) with 4294967296. change (2 ^ 8) with 256.
  Z.div_mod_to_equations. lia.
Qed.

Lemma even_index m : ((2 * m) mod 2 = 0)%nat.
Proof. rewrite Nat.mul_comm. apply Nat.Div0.mod_mul. Qed.

Lemma odd_index m : (S (2 * m) mod 2 = 1)%nat.
Proof.
  replace (S (2 * m)) with (1 + m * 2)%nat by lia.
  now rewrite Nat.Div0.mod_add.
Qed.

(** Two bytes at a time. *)
Lemma random_buf_loop_closed rand n : forall m number k,
  random_buf_loop rand n (2 * m) number k
  = (firstn n (flat_map (fun j => low_bytes (rand j)) (seq k ((n + 1) / 2))),
     (k + (n + 1) / 2)%nat)
  /\
  random_buf_loop rand (S n) (2 * m) number k
  = (firstn (S n) (flat_map (fun j => low_bytes (rand j)) (seq k ((S n + 1) / 2))),
     (k + (S n + 1) / 2)%nat).
Proof.
  induction n as [|n IH]; intros m number k.
  - split.
    + cbn. now rewrite Nat.add_0_r.
    + cbn [random_buf_loop]. change (Z.to_nat sizeof_uint16_t) with 2%nat.
      rewrite even_index.
      cbn [Nat.eqb fst snd]. rewrite random_byte_low.
      change ((1 + 1) / 2)%nat with 1%nat. cbn. now rewrite Nat.add_1_r.
  - split; [apply IH|].
    cbn [random_buf_loop]. change (Z.to_nat sizeof_uint16_t) with 2%nat.
    rewrite even_index.
    rewrite odd_index.
    cbn [Nat.eqb fst snd]. rewrite random_byte_low, random_byte_high.
    replace (S (S (2 * m))) with (2 * S m)%nat by lia.
    destruct (IH (S m) (to_uint32 (rand k)) (S k)) as [-> _]. cbn [fst snd].
    replace ((S (S n) + 1) / 2)%nat with (S ((n + 1) / 2))%nat.
    + cbn [seq flat_map low_bytes app firstn].
      f_equal. lia.
    + change (S (S n) + 1)%nat with (S (S (n + 1))).
      replace (S (S (n + 1))) with (n + 1 + 1 * 2)%nat by lia.
      rewrite Nat.div_add by lia. lia.
Qed.

Lemma random_buf_closed (rand : nat -> Z) (calls size : nat) :
  random_buf rand calls size
  = (firstn size
       (flat_map (fun j => low_bytes (rand j)) (seq calls ((size + 1) / 2))),
     (calls + (size + 1) / 2)%nat).
Proof.
  unfold random_buf. change 0%nat with (2 * 0)%nat at 1.
  apply random_buf_loop_closed.
Qed.

Lemma low_bytes_mod r r' : r mod 65536 = r' mod 65536 -> low_bytes r = low_bytes r'.
Proof.
  intros H. unfold low_bytes.
  assert (r mod 256 = r' mod 256 /\ (r / 256) mod 256 = (r' / 256) mod 256) as [-> ->];
    [|reflexivity].
  revert H. Z.div_mod_to_equations. lia.
Qed.

Lemma low_bytes_length (rand : nat -> Z) l :
  List.length (flat_map (fun j => low_bytes (rand j)) l) = (2 * List.length l)%nat.
Proof.
  induction l as [|j l IH]; [reflexivity|].
  cbn [flat_map low_bytes app List.length]. rewrite IH. lia.
Qed.

Lemma low_bytes_range (rand : nat -> Z) l :
  Forall (fun b => 0 <= b < 256) (flat_map (fun j => low_bytes (rand j)) l).
Proof.
  induction l as [|j l IH]; [constructor|].
  cbn [flat_map low_bytes app].
  repeat constructor; try apply Z.mod_pos_bound; try lia. exact IH.
Qed.

(** X1.  [random_buf] draws one number for every two bytes and stores of
    each number its low byte, then its second byte: the buffer is the
    first [size] bytes of that sequence, and [random()] has been called
    [size / 2] times, rounded up. *)
Theorem random_buf_stores_low_bytes (rand : nat -> Z) (calls size : nat) :
  random_buf rand calls size
  = (firstn size
       (flat_map (fun j => low_bytes (rand j)) (seq calls ((size + 1) / 2))),
     (calls + (size + 1) / 2)%nat).
Proof. apply random_buf_closed. Qed.

(** X2.  [random_buf] uses the low 16 bits of each result of [random()]
    and nothing else of it: two sequences of results that agree modulo
    65536 fill the buffer alike. *)
Theorem random_buf_keeps_16_bits (rand rand' : nat -> Z) (calls size : nat) :
  (forall j, rand j mod 65536 = rand' j mod 65536) ->
  fst (random_buf rand calls size) = fst (random_buf rand' calls size).
Proof.
  intros H. rewrite !random_buf_closed. cbn [fst]. f_equal.
  apply flat_map_ext. intros j. apply low_bytes_mod, H.
Qed.

(** X3.  [random_buf] fills exactly [size] bytes, each in 0..255,
    whatever [random()] returns. *)
Theorem random_buf_fills_size_bytes (rand : nat -> Z) (calls size : nat) :
  List.length (fst (random_buf rand calls size)) = size /\
  Forall (fun b => 0 <= b < 256) (fst (random_buf rand calls size)).
Proof.
  rewrite random_buf_closed. cbn [fst]. split.
  - apply firstn_length_le. rewrite low_bytes_length, length_seq.
    pose proof (Nat.div_mod_eq (size + 1) 2) as Hd.
    pose proof (Nat.mod_upper_bound (size + 1) 2 ltac:(lia)). lia.
  - pose proof (low_bytes_range rand (seq calls ((size + 1) / 2))) as Hr.
    rewrite <- (firstn_skipn size) in Hr. apply Forall_app in Hr. apply Hr.
Qed.

(* ================================================================== *)
(** * More of main.c: default_log_handler on any call *)
(* ================================================================== *)

Section LogHandler.
Context {libc : Libc}.

Lemma log_fields_returns stream format : forall i ap w,
  all_recognized format = true -> arguments_match format ap = true ->
  exists body,
    runs (log_fields stream i format ap) w (Ok tt) body /\
    Forall (is_fprintf_to stream) body.
Proof.
  induction format as [|c format IH]; intros i ap w Hall Hfit.
  - exists []. split; [apply runs_ret | constructor].
  - cbn [all_recognized arguments_match log_fields] in *.
    destruct (c =? NUL)%char.
    { exists []. split; [apply runs_ret | constructor]. }
    apply andb_true_iff in Hall as [Hc Hall].
    destruct ap as [|[z|key|a|b] [|v ap]]; try discriminate Hfit.
    apply andb_true_iff in Hfit as [Hv Hfit].
    cbn [va_arg_string].
    assert (exists pre,
              runs (if (0 <? i)%nat then emit (ev_fprintf stream ", ") else ret tt)
                w (Ok tt) pre /\ Forall (is_fprintf_to stream) pre) as (pre & Hpre & Fpre).
    { destruct (0 <? i)%nat; eexists; (split; [apply runs_emit || apply runs_ret|]);
        repeat constructor. now eexists. }
    destruct (log_value_recognized stream c v ap
                (extend (extend w pre) [ev_fprintf stream (quoted key ++ ": ")%string])
                Hc Hv) as [text Hval].
    destruct (IH (S i) ap
                (extend (extend (extend w pre)
                           [ev_fprintf stream (quoted key ++ ": ")%string])
                   [ev_fprintf stream text]) Hall Hfit) as (body & Hbody & Fbody).
    eexists. split.
    + eapply runs_bind; [exact Hpre | cbn beta].
      eapply runs_bind; [apply runs_ret | rewrite extend_nil; cbn beta].
      cbn [fst snd].
      eapply runs_bind; [apply runs_emit | cbn beta].
      eapply runs_bind; [exact Hval | cbn beta]. exact Hbody.
    + apply Forall_app. split; [exact Fpre|]. cbn [app].
      repeat (constructor; [now eexists|]). exact Fbody.
Qed.


(** X4.  On a call whose tags are all recognised and whose arguments are
    those the format announces, [default_log_handler] returns, and what
    it does is: lock the stream, print the opening and the time, print
    the fields, all to that stream, print the closing, then flush, sync
    and unlock, in this order. *)
Theorem default_log_handler_locks_prints_syncs_unlocks
    (stream : FILE) (format : string) (ap : va_list) (w : world) :
  all_recognized format = true -> arguments_match format ap = true ->
  exists body,
    runs (default_log_handler (Some stream) format ap) w (Ok tt)
      ([ev_flockfile stream; ev_fprintf stream "{ ";
        ev_fprintf stream
          (quoted "time" ++ ": " ++ fmt_d (to_int (to_uint32 (w_time w))) ++ ",")%string]
       ++ body
       ++ [ev_fprintf stream (String " " (String "}" (String LF EmptyString)));
           ev_fflush stream; ev_fsync stream; ev_funlockfile stream])%list /\
    Forall (is_fprintf_to stream) body.
Proof.
  intros Hall Hfit. unfold default_log_handler.
  destruct (log_fields_returns stream format 0 ap
              (extend (extend (extend (extend w [ev_flockfile stream])
                                 [ev_fprintf stream "{ "]) [])
                 [ev_fprintf stream
                    (quoted "time" ++ ": "
                     ++ fmt_d (to_int (to_uint32 (w_time w))) ++ ",")%string])
              Hall Hfit) as (body & Hbody & Fbody).
  exists body. split; [|exact Fbody].
  eapply runs_events.
  - eapply runs_bind; [apply runs_emit | cbn beta].
    eapply runs_bind; [apply runs_emit | cbn beta].
    eapply runs_bind; [apply runs_time | cbn beta].
    eapply runs_bind; [apply runs_emit | cbn beta].
    eapply runs_bind; [exact Hbody | cbn beta].
    eapply runs_bind; [apply runs_emit | cbn beta].
    eapply runs_bind; [apply runs_emit | cbn beta].
    eapply runs_bind; [apply runs_emit | cbn beta].
    apply runs_emit.
  - cbn [app]. reflexivity.
Qed.


End LogHandler.

(** ** Printing fields and reading them back *)

Lemma lex_string s : forall acc rest,
  plain s = true ->
  lex (InString acc) (s ++ String dquote rest)
  = option_map (cons (STR (acc ++ s))) (lex Between rest).
Proof.
  induction s as [|c s IH]; intros acc rest Hs.
  - cbn [append lex]. change (dquote =? dquote)%char with true. cbn iota.
    now rewrite append_empty_r.
  - cbn [plain] in Hs. apply andb_true_iff in Hs as [Hc Hs].
    apply negb_true_iff in Hc. cbn [append lex]. rewrite Hc.
    rewrite IH by assumption. unfold snoc. now rewrite append_assoc3.
Qed.

Lemma lex_quoted s rest :
  plain s = true ->
  lex Between (quoted s ++ rest) = option_map (cons (STR s)) (lex Between rest).
Proof.
  intros Hs. unfold quoted. cbn [append]. rewrite append_assoc3. cbn [append].
  remember (lex Between rest) as R eqn:HR.
  cbn [lex]. change (between_step dquote) with (Some (InString EmptyString, @nil token)).
  cbn iota. rewrite lex_string by assumption. rewrite <- HR. cbn [append].
  destruct R; reflexivity.
Qed.

Lemma field_value_is_number v n : field_value v = number n -> is_number n = true.
Proof.
  destruct v; cbn [field_value]; intros [= <-];
    first [apply fmt_d_is_number | apply fmt_u_is_number].
Qed.

Lemma fields_text_head i fields c rest :
  is_digit c = false ->
  exists c' rest',
    (fields_text (S i) fields ++ String c rest)%string = String c' rest' /\
    is_digit c' = false.
Proof.
  intros Hc. destruct fields as [|[k v] fields].
  - exists c, rest. now split.
  - cbn [fields_text Nat.ltb Nat.leb append]. eexists _, _. split; reflexivity.
Qed.

Lemma lex_fields fields : forall i c rest,
  forallb plain_field fields = true -> is_digit c = false ->
  lex Between (fields_text (S i) fields ++ String c rest)
  = option_map (app (fields_tokens (S i) fields)) (lex Between (String c rest)).
Proof.
  induction fields as [|[k v] fields IH]; intros i c rest Hp Hc.
  - cbn [fields_text fields_tokens append]. now destruct (lex Between (String c rest)).
  - cbn [forallb] in Hp. apply andb_true_iff in Hp as [Hkv Hp].
    unfold plain_field in Hkv. cbn [fst snd] in Hkv.
    apply andb_true_iff in Hkv as [Hk Hv].
    specialize (IH (S i) c rest Hp Hc).
    destruct (fields_text_head (S i) fields c rest Hc) as (c' & rest' & Hhead & Hc').
    remember (lex Between (String c rest)) as R eqn:HR.
    cbn [fields_text fields_tokens Nat.ltb Nat.leb].
    rewrite !append_assoc3. cbn [append].
    cbn [lex]. change (between_step ",") with (Some (Between, [COMMA])). cbn iota.
    cbn [lex]. change (between_step " ") with (Some (Between, @nil token)). cbn iota.
    rewrite lex_quoted by assumption.
    cbn [lex]. change (between_step ":") with (Some (Between, [COLON])). cbn iota.
    cbn [lex]. change (between_step " ") with (Some (Between, @nil token)). cbn iota.
    unfold field_text, field_token.
    destruct (field_value v) as [n|s] eqn:Hfv.
    + rewrite Hhead. rewrite lex_number
        by (first [exact Hc' | eapply field_value_is_number; exact Hfv]).
      rewrite <- Hhead, IH. destruct R; reflexivity.
    + assert (plain s = true) as Hs by (destruct v; try discriminate Hfv;
                                         cbn in Hfv; now injection Hfv as <-).
      rewrite lex_quoted by assumption. rewrite IH. destruct R; reflexivity.
Qed.

Lemma parse_fields_more k t v rest :
  value_of t = Some v ->
  parse_fields (STR k :: COLON :: t :: COMMA :: rest)
  = option_map (cons (k, v)) (parse_fields rest).
Proof. intros Ht. cbn [parse_fields]. now rewrite Ht. Qed.

Lemma parse_fields_tokens fields : forall i k t v,
  value_of t = Some v ->
  parse_fields (STR k :: COLON :: t :: (fields_tokens (S i) fields ++ [RBRACE])%list)
  = Some ((k, v) :: map (fun kv => (fst kv, field_value (snd kv))) fields).
Proof.
  induction fields as [|[k' v'] fields IH]; intros i k t v Ht.
  - cbn [fields_tokens app parse_fields map]. now rewrite Ht.
  - cbn [fields_tokens Nat.ltb Nat.leb app map].
    rewrite (parse_fields_more k t v) by exact Ht.
    rewrite (IH (S i) k' (field_token v') (field_value v')).
    + reflexivity.
    + unfold field_token. now destruct (field_value v').
Qed.

Section LogRecord.
Context {libc : Libc}.

Lemma log_fields_prints stream fields : forall i w,
  exists body,
    runs (log_fields stream i (fields_format fields) (fields_arguments fields))
      w (Ok tt) body /\
    printed body = fields_text i fields.
Proof.
  induction fields as [|[k v] fields IH]; intros i w.
  - exists []. split; [apply runs_ret | reflexivity].
  - assert (exists pre,
              runs (if (0 <? i)%nat then emit (ev_fprintf stream ", ") else ret tt)
                w (Ok tt) pre /\
              printed pre = (if (0 <? i)%nat then ", " else EmptyString))
      as (pre & Hpre & Ppre).
    { destruct (0 <? i)%nat; eexists; (split; [apply runs_emit || apply runs_ret|]);
        reflexivity. }
    assert (exists ap',
              ap' = fields_arguments fields /\
              runs (log_value stream (field_tag v) (field_argument v :: ap'))
                (extend (extend w pre) [ev_fprintf stream (quoted k ++ ": ")%string])
                (Ok ap') [ev_fprintf stream (field_text v)])
      as (ap' & -> & Hval).
    { eexists. split; [reflexivity|].
      destruct v; cbn [field_tag field_argument field_text field_value];
        unfold log_value; cbn [tag_of Ascii.eqb Bool.eqb];
        cbn [va_arg_integer va_arg_string va_slot];
        (eapply runs_events;
         [ eapply runs_bind; [apply runs_ret | rewrite extend_nil; cbn beta];
           eapply runs_bind; [apply runs_emit | cbn beta]; apply runs_ret
         | reflexivity ]). }
    destruct (IH (S i)
                (extend (extend (extend w pre)
                           [ev_fprintf stream (quoted k ++ ": ")%string])
                   [ev_fprintf stream (field_text v)])) as (body & Hbody & Pbody).
    eexists. split.
    + cbn [fields_format fields_arguments log_fields].
      replace (field_tag v =? NUL)%char with false by now destruct v.
      cbn [va_arg_string].
      eapply runs_bind; [exact Hpre | cbn beta].
      eapply runs_bind; [apply runs_ret | rewrite extend_nil; cbn beta].
      cbn [fst snd].
      eapply runs_bind; [apply runs_emit | cbn beta].
      eapply runs_bind; [exact Hval | cbn beta]. exact Hbody.
    + cbn [app]. rewrite printed_app, Ppre. cbn [printed]. rewrite Pbody.
      cbn [fields_text]. now rewrite !append_assoc3.
Qed.

(** X6.  A record [default_log_handler] prints reads back as its fields:
    on a call with at least one field, the tags among s, d, u, q and z,
    the keys and the strings without a double quote, the text printed
    parses as the time followed by the fields of the call in call order,
    each key with its value as its tag prints it. *)
Theorem default_log_handler_record_reads_back
    (stream : FILE) (k : string) (v : field) (fields : list (string * field))
    (w : world) :
  forallb plain_field ((k, v) :: fields) = true ->
  exists evs,
    runs (default_log_handler (Some stream)
            (fields_format ((k, v) :: fields)) (fields_arguments ((k, v) :: fields)))
      w (Ok tt) evs /\
    parse_record (printed evs)
    = Some (("time", number (fmt_d (to_int (to_uint32 (w_time w)))))
              :: map (fun kv => (fst kv, field_value (snd kv))) ((k, v) :: fields)).
Proof.
  intros Hp.
  destruct (log_fields_prints stream ((k, v) :: fields) 0
              (extend (extend (extend (extend w [ev_flockfile stream])
                                 [ev_fprintf stream "{ "]) [])
                 [ev_fprintf stream
                    (quoted "time" ++ ": "
                     ++ fmt_d (to_int (to_uint32 (w_time w))) ++ ",")%string]))
    as (body & Hbody & Pbody).
  eexists. split.
  - unfold default_log_handler.
    eapply runs_bind; [apply runs_emit | cbn beta].
    eapply runs_bind; [apply runs_emit | cbn beta].
    eapply runs_bind; [apply runs_time | cbn beta].
    eapply runs_bind; [apply runs_emit | cbn beta].
    eapply runs_bind; [exact Hbody | cbn beta].
    eapply runs_bind; [apply runs_emit | cbn beta].
    eapply runs_bind; [apply runs_emit | cbn beta].
    eapply runs_bind; [apply runs_emit | cbn beta].
    apply runs_emit.
  - cbn [app printed]. rewrite printed_app, Pbody. cbn [printed].
    cbn [forallb] in Hp. apply andb_true_iff in Hp as [Hkv Hp].
    unfold plain_field in Hkv. cbn [fst snd] in Hkv.
    apply andb_true_iff in Hkv as [Hk Hv].
    destruct (fields_text_head 0 fields " " (String "}" (String LF EmptyString))
                eq_refl) as (c' & rest' & Hhead & Hc').
    pose proof (lex_fields fields 0 " " (String "}" (String LF EmptyString)) Hp eq_refl)
      as Hrest.
    change (lex Between (String " " (String "}" (String LF EmptyString))))
      with (Some [RBRACE]) in Hrest. cbn [option_map] in Hrest.
    unfold parse_record.
    cbn [fields_text Nat.ltb Nat.leb map fst snd].
    rewrite !append_assoc3. cbn [append].
    cbn [lex]. change (between_step "{") with (Some (Between, [LBRACE])). cbn iota.
    cbn [lex]. change (between_step " ") with (Some (Between, @nil token)). cbn iota.
    rewrite lex_quoted by reflexivity.
    cbn [lex]. change (between_step ":") with (Some (Between, [COLON])). cbn iota.
    cbn [lex]. change (between_step " ") with (Some (Between, @nil token)). cbn iota.
    rewrite lex_number by (first [reflexivity | apply fmt_d_is_number]).
    cbn [lex]. change (between_step ",") with (Some (Between, [COMMA])). cbn iota.
    rewrite lex_quoted by assumption.
    cbn [lex]. change (between_step ":") with (Some (Between, [COLON])). cbn iota.
    cbn [lex]. change (between_step " ") with (Some (Between, @nil token)). cbn iota.
    assert (lex Between
              (field_text v
               ++ fields_text 1 fields ++ String " " (String "}" (String LF EmptyString)))
            = Some (field_token v :: (fields_tokens 1 fields ++ [RBRACE])%list)) as ->.
    { unfold field_text, field_token.
      destruct (field_value v) as [n|s] eqn:Hfv.
      - rewrite Hhead. rewrite lex_number
          by (first [exact Hc' | eapply field_value_is_number; exact Hfv]).
        rewrite <- Hhead, Hrest. reflexivity.
      - assert (plain s = true) as Hs by (destruct v; try discriminate Hfv;
                                           cbn in Hfv; now injection Hfv as <-).
        rewrite lex_quoted by assumption. now rewrite Hrest. }
    cbn [option_map app].
    rewrite (parse_fields_more "time" _ (number (fmt_d (to_int (to_uint32 (w_time w))))))
      by reflexivity.
    rewrite (parse_fields_tokens fields 0 k (field_token v) (field_value v)).
    + reflexivity.
    + unfold field_token. now destruct (field_value v).
Qed.

(** X7.  With an empty format [default_log_handler] prints the time, its
    comma and the closing brace, and returns: the braces balance, but the
    comma is followed by no field and the text does not read back as a
    record. *)
Theorem default_log_handler_empty_format_leaves_comma
    (stream : FILE) (ap : va_list) (w : world) :
  runs (default_log_handler (Some stream) EmptyString ap) w (Ok tt)
    (time_only_record stream (w_time w)) /\
  balanced (printed (time_only_record stream (w_time w))) = true /\
  lex Between (printed (time_only_record stream (w_time w)))
  = Some [LBRACE; STR "time"; COLON;
          NUM (fmt_d (to_int (to_uint32 (w_time w)))); COMMA; RBRACE] /\
  parse_record (printed (time_only_record stream (w_time w))) = None.
Proof.
  unfold time_only_record. split.
  - unfold default_log_handler. eapply runs_events; [run_all | reflexivity].
  - assert (lex Between
              (printed
                 [ev_flockfile stream; ev_fprintf stream "{ ";
                  ev_fprintf stream
                    (quoted "time" ++ ": "
                     ++ fmt_d (to_int (to_uint32 (w_time w))) ++ ",")%string;
                  ev_fprintf stream (String " " (String "}" (String LF EmptyString)));
                  ev_fflush stream; ev_fsync stream; ev_funlockfile stream])
            = Some [LBRACE; STR "time"; COLON;
                    NUM (fmt_d (to_int (to_uint32 (w_time w)))); COMMA; RBRACE]) as Hlex.
    { normalize_text. cbn.
      rewrite lex_number by number_side. reflexivity. }
    split; [|split; [exact Hlex|]].
    + normalize_text. balance_all. reflexivity.
    + unfold parse_record. rewrite Hlex. reflexivity.
Qed.

End LogRecord.

(* ================================================================== *)
(** * More of lib/io_fuzzer.c *)
(* ================================================================== *)

Ltac stop_switch Hlog lemma :=
  eapply runs_events;
  [ repeat first
      [ run_pure
      | bounds ];
    apply lemma; exact Hlog
  | cbn [app]; reflexivity ].

Section SwitchStops.
Context {istream : Type} {I : Input istream}.

(** The iteration goes no further than a log call that does not return. *)
Lemma iterate_switch_stops (f : io_fuzzer_t) (port : Z) (s : istream) :
  read16_is_uint16 -> read_string_exact ->
  0 <= fst (input_derive_range s 0 11) <= 11 ->
  exists c,
    spec_catalog (fst (input_derive_range s 0 11)) = Some (io_width c, io_kind c) /\
    io_port c = port /\
    forall w evs,
      (runs (io_fuzzer_log f (log_format c) (log_arguments (w_string w) c)) w Abort evs ->
       runs (iterate_switch f port s) w Abort evs) /\
      (runs (io_fuzzer_log f (log_format c) (log_arguments (w_string w) c)) w Undefined evs ->
       runs (iterate_switch f port s) w Undefined evs).
Proof.
  intros H16 Hexact Hsel. unfold iterate_switch.
  destruct (input_derive_range s 0 11) as [sel s1]. cbn [fst] in *.
  assert (sel = 0 \/ sel = 1 \/ sel = 2 \/ sel = 3 \/ sel = 4 \/ sel = 5 \/ sel = 6
          \/ sel = 7 \/ sel = 8 \/ sel = 9 \/ sel = 10 \/ sel = 11) as E by lia.
  clear Hsel.
  destruct (count_bounds s1 H16) as [Hc Hr].
  destruct E as [->|[->|[->|[->|[->|[->|[->|[->|[->|[->|[->| ->]]]]]]]]]]].
  - exists (io_read16 port). split; [reflexivity|]. split; [reflexivity|].
    intros w evs. split; intros Hlog;
      [stop_switch Hlog (@runs_bind_abort unit istream)
      |stop_switch Hlog (@runs_bind_undefined unit istream)].
  - exists (io_read32 port). split; [reflexivity|]. split; [reflexivity|].
    intros w evs. split; intros Hlog;
      [stop_switch Hlog (@runs_bind_abort unit istream)
      |stop_switch Hlog (@runs_bind_undefined unit istream)].
  - exists (io_read8 port). split; [reflexivity|]. split; [reflexivity|].
    intros w evs. split; intros Hlog;
      [stop_switch Hlog (@runs_bind_abort unit istream)
      |stop_switch Hlog (@runs_bind_undefined unit istream)].
  - destruct (input_read16 s1) as [r s2]. cbn [fst] in *. rewrite Hc.
    exists (io_read_string16 port r). split; [reflexivity|]. split; [reflexivity|].
    intros w evs. split; intros Hlog;
      [stop_switch Hlog (@runs_bind_abort unit istream)
      |stop_switch Hlog (@runs_bind_undefined unit istream)].
  - destruct (input_read16 s1) as [r s2]. cbn [fst] in *. rewrite Hc.
    exists (io_read_string32 port r). split; [reflexivity|]. split; [reflexivity|].
    intros w evs. split; intros Hlog;
      [stop_switch Hlog (@runs_bind_abort unit istream)
      |stop_switch Hlog (@runs_bind_undefined unit istream)].
  - destruct (input_read16 s1) as [r s2]. cbn [fst] in *. rewrite Hc.
    exists (io_read_string8 port r). split; [reflexivity|]. split; [reflexivity|].
    intros w evs. split; intros Hlog;
      [stop_switch Hlog (@runs_bind_abort unit istream)
      |stop_switch Hlog (@runs_bind_undefined unit istream)].
  - destruct (input_read16 s1) as [r s2].
    exists (io_write16 port (to_uint16 r)). split; [reflexivity|]. split; [reflexivity|].
    intros w evs. split; intros Hlog;
      [stop_switch Hlog (@runs_bind_abort unit istream)
      |stop_switch Hlog (@runs_bind_undefined unit istream)].
  - destruct (input_read32 s1) as [r s2].
    exists (io_write32 port (to_uint32 r)). split; [reflexivity|]. split; [reflexivity|].
    intros w evs. split; intros Hlog;
      [stop_switch Hlog (@runs_bind_abort unit istream)
      |stop_switch Hlog (@runs_bind_undefined unit istream)].
  - destruct (input_read8 s1) as [r s2].
    exists (io_write8 port (to_uint8 r)). split; [reflexivity|]. split; [reflexivity|].
    intros w evs. split; intros Hlog;
      [stop_switch Hlog (@runs_bind_abort unit istream)
      |stop_switch Hlog (@runs_bind_undefined unit istream)].
  - destruct (input_read16 s1) as [r s2]. cbn [fst] in *. rewrite Hc.
    destruct (Hexact s2 r ltac:(lia)) as (H8 & H16' & H32).
    destruct (input_read_string16 s2 r) as [data s3]. cbn [fst] in *.
    exists (io_write_string16 port data r). split; [reflexivity|]. split; [reflexivity|].
    intros w evs. split; intros Hlog;
      [stop_switch Hlog (@runs_bind_abort unit istream)
      |stop_switch Hlog (@runs_bind_undefined unit istream)].
  - destruct (input_read16 s1) as [r s2]. cbn [fst] in *. rewrite Hc.
    destruct (Hexact s2 r ltac:(lia)) as (H8 & H16' & H32).
    destruct (input_read_string32 s2 r) as [data s3]. cbn [fst] in *.
    exists (io_write_string32 port data r). split; [reflexivity|]. split; [reflexivity|].
    intros w evs. split; intros Hlog;
      [stop_switch Hlog (@runs_bind_abort unit istream)
      |stop_switch Hlog (@runs_bind_undefined unit istream)].
  - destruct (input_read16 s1) as [r s2]. cbn [fst] in *. rewrite Hc.
    destruct (Hexact s2 r ltac:(lia)) as (H8 & H16' & H32).
    destruct (input_read_string8 s2 r) as [data s3]. cbn [fst] in *.
    exists (io_write_string8 port data r). split; [reflexivity|]. split; [reflexivity|].
    intros w evs. split; intros Hlog;
      [stop_switch Hlog (@runs_bind_abort unit istream)
      |stop_switch Hlog (@runs_bind_undefined unit istream)].
Qed.

End SwitchStops.

Section MoreIterate.
Context {libc : Libc} {istream : Type} {I : Input istream}.

Lemma io_fuzzer_log_returns io_fuzzer out c w :
  log_handler io_fuzzer = None \/ logs_by_default io_fuzzer out ->
  exists evs,
    runs (io_fuzzer_log io_fuzzer (log_format c) (log_arguments (w_string w) c)) w
      (Ok tt) evs /\
    io_calls evs = [].
Proof.
  intros [Hnone | Hdef].
  - exists []. split; [now apply io_fuzzer_log_without_handler | reflexivity].
  - destruct (io_fuzzer_log_by_default io_fuzzer out c w Hdef) as (evs & Hl & Hio & _).
    eexists. split; [exact Hl | exact Hio].
Qed.

Lemma io_calls_after evs c : io_calls evs = [] -> io_calls (evs ++ [ev_io c]) = [c].
Proof. intros H. now rewrite io_calls_app, H. Qed.

(** X8.  A log handler that does not return keeps the primitive from
    being invoked: on every selector in 0..11, if the installed handler
    aborts on the log call of the iteration, the iteration ends aborted
    after the log call and what the handler did, the port untouched. *)
Theorem aborting_log_handler_prevents_the_invocation
    (io_fuzzer : io_fuzzer_t) (handler : io_fuzzer_log_handler_t) (s : istream)
    (port : Z) (s1 : istream) (w : world) :
  read16_is_uint16 -> read_string_exact ->
  runs (iterate_port io_fuzzer s) w (Ok (port, s1)) [] ->
  0 <= fst (input_derive_range s1 0 11) <= 11 ->
  log_handler io_fuzzer = Some handler ->
  (forall format ap w', exists evs,
      runs (handler (log_stream io_fuzzer) format ap) w' Abort evs /\ io_calls evs = []) ->
  exists format ap evs,
    runs (io_fuzzer_iterate io_fuzzer s) w Abort
      (ev_log (log_stream io_fuzzer) format ap :: evs) /\
    io_calls (ev_log (log_stream io_fuzzer) format ap :: evs) = [].
Proof.
  intros H16 Hexact Hport Hsel Hh Habort.
  destruct (iterate_switch_stops io_fuzzer port s1 H16 Hexact Hsel)
    as (c & _ & _ & Hstop).
  destruct (Habort (log_format c) (log_arguments (w_string w) c)
              (extend w [ev_log (log_stream io_fuzzer) (log_format c)
                           (log_arguments (w_string w) c)])) as (evs & Hevs & Hio).
  exists (log_format c), (log_arguments (w_string w) c), evs. split; [|exact Hio].
  eapply iterate_after_port; [exact Hport|].
  apply Hstop. unfold io_fuzzer_log. rewrite Hh.
  change (ev_log (log_stream io_fuzzer) (log_format c) (log_arguments (w_string w) c)
            :: evs)
    with ([ev_log (log_stream io_fuzzer) (log_format c) (log_arguments (w_string w) c)]
            ++ evs)%list.
  eapply runs_bind; [apply runs_emit | exact Hevs].
Qed.

(** X9.  The default log handler needs a stream: on an instance that has
    [default_log_handler] installed and no log stream, every iteration
    with a selector in 0..11 is undefined at [flockfile], after the log
    call and before any primitive. *)
Theorem default_handler_without_stream_is_undefined
    (io_fuzzer : io_fuzzer_t) (s : istream) (port : Z) (s1 : istream) (w : world) :
  read16_is_uint16 -> read_string_exact ->
  runs (iterate_port io_fuzzer s) w (Ok (port, s1)) [] ->
  0 <= fst (input_derive_range s1 0 11) <= 11 ->
  log_handler io_fuzzer = Some default_log_handler ->
  log_stream io_fuzzer = None ->
  exists format ap,
    runs (io_fuzzer_iterate io_fuzzer s) w Undefined [ev_log None format ap].
Proof.
  intros H16 Hexact Hport Hsel Hh Hs.
  destruct (iterate_switch_stops io_fuzzer port s1 H16 Hexact Hsel)
    as (c & _ & _ & Hstop).
  exists (log_format c), (log_arguments (w_string w) c).
  eapply iterate_after_port; [exact Hport|].
  apply Hstop. unfold io_fuzzer_log. rewrite Hh, Hs.
  change [ev_log None (log_format c) (log_arguments (w_string w) c)]
    with ([ev_log None (log_format c) (log_arguments (w_string w) c)] ++ [])%list.
  eapply runs_bind; [apply runs_emit | apply runs_undefined].
Qed.

(** X10.  A read takes no data from the stream: after the port and the
    selector a scalar read (selectors 0..2) leaves the stream where it
    is, and a string read (selectors 3..5) takes the 16-bit count and
    nothing else, the count being the one the primitive receives. *)
Theorem reads_take_no_data_from_the_stream
    (io_fuzzer : io_fuzzer_t) (s : istream) (port : Z) (s1 : istream)
    (out : FILE) (w : world) :
  read16_is_uint16 ->
  runs (iterate_port io_fuzzer s) w (Ok (port, s1)) [] ->
  log_handler io_fuzzer = None \/ logs_by_default io_fuzzer out ->
  0 <= fst (input_derive_range s1 0 11) <= 5 ->
  exists c evs,
    runs (io_fuzzer_iterate io_fuzzer s) w
      (Ok (if fst (input_derive_range s1 0 11) <=? 2
           then snd (input_derive_range s1 0 11)
           else snd (input_read16 (snd (input_derive_range s1 0 11))))) evs /\
    io_calls evs = [c] /\
    io_port c = port /\
    io_count c
    = (if fst (input_derive_range s1 0 11) <=? 2 then None
       else Some (fst (input_read16 (snd (input_derive_range s1 0 11))))).
Proof.
  intros H16 Hport Hlog Hsel.
  assert (forall c s',
            (forall w' evs,
               runs (io_fuzzer_log io_fuzzer (log_format c)
                       (log_arguments (w_string w') c)) w' (Ok tt) evs ->
               runs (iterate_switch io_fuzzer port s1) w' (Ok s') (evs ++ [ev_io c])) ->
            exists evs,
              runs (io_fuzzer_iterate io_fuzzer s) w (Ok s') evs /\ io_calls evs = [c])
    as Hdone.
  { intros c s' Hrun.
    destruct (io_fuzzer_log_returns io_fuzzer out c w Hlog) as (evs & Hl & Hio).
    exists (evs ++ [ev_io c])%list. split; [|now apply io_calls_after].
    eapply iterate_after_port; [exact Hport | now apply Hrun]. }
  revert Hdone. unfold iterate_switch.
  destruct (input_derive_range s1 0 11) as [sel s2]. cbn [fst snd] in *.
  destruct (count_bounds s2 H16) as [Hc Hr].
  assert (sel = 0 \/ sel = 1 \/ sel = 2 \/ sel = 3 \/ sel = 4 \/ sel = 5) as E by lia.
  clear Hsel. intros Hdone.
  destruct E as [->|[->|[->|[->|[->| ->]]]]]; cbn [Z.leb Z.compare Pos.compare
                                                   Pos.compare_cont].
  - destruct (Hdone (io_read16 port) s2) as (evs & He & Hio).
    { intros w' evs Hl. run_switch Hl. }
    exists (io_read16 port), evs. now repeat split.
  - destruct (Hdone (io_read32 port) s2) as (evs & He & Hio).
    { intros w' evs Hl. run_switch Hl. }
    exists (io_read32 port), evs. now repeat split.
  - destruct (Hdone (io_read8 port) s2) as (evs & He & Hio).
    { intros w' evs Hl. run_switch Hl. }
    exists (io_read8 port), evs. now repeat split.
  - destruct (input_read16 s2) as [r s3]. cbn [fst snd] in *.
    destruct (Hdone (io_read_string16 port r) s3) as (evs & He & Hio).
    { intros w' evs Hl. rewrite Hc. run_switch Hl. }
    exists (io_read_string16 port r), evs. now repeat split.
  - destruct (input_read16 s2) as [r s3]. cbn [fst snd] in *.
    destruct (Hdone (io_read_string32 port r) s3) as (evs & He & Hio).
    { intros w' evs Hl. rewrite Hc. run_switch Hl. }
    exists (io_read_string32 port r), evs. now repeat split.
  - destruct (input_read16 s2) as [r s3]. cbn [fst snd] in *.
    destruct (Hdone (io_read_string8 port r) s3) as (evs & He & Hio).
    { intros w' evs Hl. rewrite Hc. run_switch Hl. }
    exists (io_read_string8 port r), evs. now repeat split.
Qed.


(** X12.  A string write puts on the port the bytes the engine read from
    the stream and no byte of the uninitialised buffer: on selectors
    9..11 the data of the primitive is what [input_read_string16],
    [input_read_string32] or [input_read_string8] stored for the count
    read before it, count times the element width bytes, whatever the
    stack held. *)
Theorem string_write_data_comes_from_the_stream
    (io_fuzzer : io_fuzzer_t) (s : istream) (port : Z) (s1 : istream)
    (out : FILE) (w : world) :
  read16_is_uint16 -> read_string_exact ->
  runs (iterate_port io_fuzzer s) w (Ok (port, s1)) [] ->
  log_handler io_fuzzer = None \/ logs_by_default io_fuzzer out ->
  9 <= fst (input_derive_range s1 0 11) <= 11 ->
  exists c s' evs,
    runs (io_fuzzer_iterate io_fuzzer s) w (Ok s') evs /\
    io_calls evs = [c] /\
    io_kind c = string_write /\
    io_count c = Some (fst (input_read16 (snd (input_derive_range s1 0 11)))) /\
    io_data c
    = Some (fst ((if fst (input_derive_range s1 0 11) =? 9 then input_read_string16
                  else if fst (input_derive_range s1 0 11) =? 10
                       then input_read_string32
                       else input_read_string8)
                   (snd (input_read16 (snd (input_derive_range s1 0 11))))
                   (fst (input_read16 (snd (input_derive_range s1 0 11)))))) /\
    forall data, io_data c = Some data -> Z.of_nat (List.length data) = io_extent c.
Proof.
  intros H16 Hexact Hport Hlog Hsel.
  assert (forall c s',
            (forall w' evs,
               runs (io_fuzzer_log io_fuzzer (log_format c)
                       (log_arguments (w_string w') c)) w' (Ok tt) evs ->
               runs (iterate_switch io_fuzzer port s1) w' (Ok s') (evs ++ [ev_io c])) ->
            exists evs,
              runs (io_fuzzer_iterate io_fuzzer s) w (Ok s') evs /\ io_calls evs = [c])
    as Hdone.
  { intros c s' Hrun.
    destruct (io_fuzzer_log_returns io_fuzzer out c w Hlog) as (evs & Hl & Hio).
    exists (evs ++ [ev_io c])%list. split; [|now apply io_calls_after].
    eapply iterate_after_port; [exact Hport | now apply Hrun]. }
  revert Hdone. unfold iterate_switch.
  destruct (input_derive_range s1 0 11) as [sel s2]. cbn [fst snd] in *.
  destruct (count_bounds s2 H16) as [Hc Hr].
  assert (sel = 9 \/ sel = 10 \/ sel = 11) as E by lia.
  clear Hsel. intros Hdone.
  destruct (input_read16 s2) as [r s3]. cbn [fst snd] in *.
  destruct (Hexact s3 r ltac:(lia)) as (H8 & H16' & H32).
  destruct E as [->|[->| ->]]; cbn [Z.eqb Pos.eqb]; rewrite Hc in Hdone.
  - destruct (input_read_string16 s3 r) as [data s4]. cbn [fst] in *.
    destruct (Hdone (io_write_string16 port data r) s4) as (evs & He & Hio).
    { intros w' evs Hl. run_switch Hl. }
    exists (io_write_string16 port data r), s4, evs.
    repeat split; try assumption; try reflexivity.
    intros d [= <-]. exact H16'.
  - destruct (input_read_string32 s3 r) as [data s4]. cbn [fst] in *.
    destruct (Hdone (io_write_string32 port data r) s4) as (evs & He & Hio).
    { intros w' evs Hl. run_switch Hl. }
    exists (io_write_string32 port data r), s4, evs.
    repeat split; try assumption; try reflexivity.
    intros d [= <-]. exact H32.
  - destruct (input_read_string8 s3 r) as [data s4]. cbn [fst] in *.
    destruct (Hdone (io_write_string8 port data r) s4) as (evs & He & Hio).
    { intros w' evs Hl. run_switch Hl. }
    exists (io_write_string8 port data r), s4, evs.
    repeat split; try assumption; try reflexivity.
    intros d [= <-]. exact H8.
Qed.

(** X13.  [io_fuzzer_iterate] trusts [num_ports]: when the index derived
    for a non-empty list is not below the number of entries the array
    really has, the read of [ports[port_num]] is outside the array and
    the iteration is undefined, before anything is logged or invoked. *)
Theorem port_index_beyond_the_array_is_undefined
    (io_fuzzer : io_fuzzer_t) (s : istream) (l : list Z) (w : world) :
  ports io_fuzzer = Some l -> num_ports io_fuzzer <> 0 ->
  Z.of_nat (List.length l)
  <= to_uint64 (fst (input_derive_range s 0 (num_ports io_fuzzer - 1))) ->
  runs (io_fuzzer_iterate io_fuzzer s) w Undefined [].
Proof.
  intros Hl Hn Hlen. apply iterate_port_undefined. unfold iterate_port.
  rewrite Hl. cbn [is_null orb]. apply Z.eqb_neq in Hn. rewrite Hn.
  destruct (input_derive_range s 0 (num_ports io_fuzzer - 1)) as [r s1].
  cbn [fst] in Hlen. unfold array_get.
  pose proof (to_uint64_nonneg r) as H0. apply Z.leb_le in H0. rewrite H0.
  assert (nth_error l (Z.to_nat (to_uint64 r)) = None) as ->
    by (apply nth_error_None; lia).
  apply runs_undefined.
Qed.

End MoreIterate.

(** X14.  Setting and setting back restores: a setter called with a
    value and then with the value the first call returned gives back the
    first value and leaves the instance, or the file-scope variable, as
    it was; and the two setters of an instance commute. *)
Theorem setters_restore_and_commute
    (g : globals) (io_fuzzer : io_fuzzer_t)
    (eh : option io_fuzzer_error_handler_t)
    (lh : option io_fuzzer_log_handler_t) (ls : option FILE) :
  io_fuzzer_set_error_handler
    (snd (io_fuzzer_set_error_handler g eh)) (fst (io_fuzzer_set_error_handler g eh))
  = (eh, g) /\
  io_fuzzer_set_log_handler
    (snd (io_fuzzer_set_log_handler io_fuzzer lh))
    (fst (io_fuzzer_set_log_handler io_fuzzer lh))
  = (lh, io_fuzzer) /\
  io_fuzzer_set_log_stream
    (snd (io_fuzzer_set_log_stream io_fuzzer ls))
    (fst (io_fuzzer_set_log_stream io_fuzzer ls))
  = (ls, io_fuzzer) /\
  snd (io_fuzzer_set_log_stream (snd (io_fuzzer_set_log_handler io_fuzzer lh)) ls)
  = snd (io_fuzzer_set_log_handler (snd (io_fuzzer_set_log_stream io_fuzzer ls)) lh).
Proof. destruct g, io_fuzzer. repeat split. Qed.

(** X15.  [io_fuzzer_create] returns an instance with the list and the
    count it was given, no log handler and no log stream, and calls no
    one, when the allocation succeeds.  When it fails the installed error
    handler is called once, with status 0, [errno] and the name of the
    function, and [NULL] is returned if the handler returns. *)
Theorem create_reports_once_and_returns_null
    (handler : io_fuzzer_error_handler_t) (errno : Z)
    (ports : option (list Z)) (num_ports : Z) (w : world)
    (r : result unit) (evs : list event) :
  runs (handler 0 errno "io_fuzzer_create" [])
    (extend w [ev_error 0 errno "io_fuzzer_create" []]) r evs ->
  runs (io_fuzzer_create (mk_globals (Some handler)) false errno ports num_ports) w
    (same_end r None) (ev_error 0 errno "io_fuzzer_create" [] :: evs) /\
  runs (io_fuzzer_create (mk_globals (Some handler)) true errno ports num_ports) w
    (Ok (Some (mk_io_fuzzer ports num_ports None None))) [].
Proof.
  intros Hh. split; [|apply runs_ret].
  unfold io_fuzzer_create, io_fuzzer_error. cbn [error_handler].
  assert (runs (emit (ev_error 0 errno "io_fuzzer_create" []) ;;
                handler 0 errno "io_fuzzer_create" [])%C w r
            (ev_error 0 errno "io_fuzzer_create" [] :: evs)) as Hreport.
  { change (ev_error 0 errno "io_fuzzer_create" [] :: evs)
      with ([ev_error 0 errno "io_fuzzer_create" []] ++ evs)%list.
    eapply runs_bind; [apply runs_emit | exact Hh]. }
  destruct r as [[]| |]; cbn [same_end].
  - rewrite <- (app_nil_r (ev_error 0 errno "io_fuzzer_create" [] :: evs)).
    eapply runs_bind; [exact Hreport | apply runs_ret].
  - now apply runs_bind_abort.
  - now apply runs_bind_undefined.
Qed.

(* ================================================================== *)
(** * More of main.c: main *)
(* ================================================================== *)

Section MainProperties.
Context {libc : Libc} {istream : Type} {I : Input istream}.

Lemma iterate_port_defined (io_fuzzer : io_fuzzer_t) (s : istream) :
  derive_range_bounded -> counts_ports io_fuzzer ->
  exists port s1, forall w, runs (iterate_port io_fuzzer s) w (Ok (port, s1)) [].
Proof.
  intros Hrange [Hsize Hcount].
  destruct (iterate_port_cases io_fuzzer s) as [[[port s1] Hp] | Hu];
    [now exists port, s1|].
  exfalso. specialize (Hu (initial_world 0 (fun _ => 0) 0)).
  revert Hu. unfold iterate_port.
  destruct (is_null (ports io_fuzzer) || (num_ports io_fuzzer =? 0)) eqn:Hnull.
  - destruct (input_derive_range s 0 (MAX_PORTS - 1)). intros Hu.
    destruct (runs_unique _ _ _ _ _ _ Hu (runs_ret _ _)) as [Hr _]. discriminate Hr.
  - apply orb_false_iff in Hnull as [Hl Hn].
    destruct (ports io_fuzzer) as [l|] eqn:Hports; [|discriminate Hl].
    specialize (Hcount l eq_refl). apply Z.eqb_neq in Hn.
    pose proof (Hrange s 0 (num_ports io_fuzzer - 1) ltac:(lia)) as Hb.
    destruct (input_derive_range s 0 (num_ports io_fuzzer - 1)) as [r s1].
    cbn [fst] in Hb.
    assert (to_uint64 r = r) as -> by (unfold to_uint64; apply Z.mod_small; lia).
    unfold array_get.
    destruct (0 <=? r) eqn:H0; [|apply Z.leb_gt in H0; lia].
    destruct (nth_error l (Z.to_nat r)) eqn:He.
    + intros Hu.
      destruct (runs_unique _ _ _ _ _ _ Hu (runs_ret _ _)) as [Hr _]. discriminate Hr.
    + apply nth_error_None in He. lia.
Qed.

(** Under the contract of the engine an iteration of a logging instance
    returns, having logged and invoked once. *)
Lemma iterate_returns (io_fuzzer : io_fuzzer_t) (out : FILE) (s : istream) (w : world) :
  derive_range_bounded -> read16_is_uint16 -> read_string_exact ->
  counts_ports io_fuzzer -> logs_by_default io_fuzzer out ->
  exists c s' evs,
    runs (io_fuzzer_iterate io_fuzzer s) w (Ok s') evs /\
    io_calls evs = [c] /\
    List.length (log_calls evs) = 1%nat /\
    parse_record (printed evs) = Some (spec_record (w_time w) (w_string w) c).
Proof.
  intros Hrange H16 Hexact Hcount Hlog.
  destruct (iterate_port_defined io_fuzzer s Hrange Hcount) as (port & s1 & Hport).
  pose proof (Hrange s1 0 11 ltac:(lia)) as Hsel.
  destruct (iterate_in_range io_fuzzer s port s1 out H16 Hexact Hsel (or_intror Hlog))
    as (c & s' & _ & _ & _ & _ & Hrun).
  destruct (Hrun w (Hport w)) as (evs & Hevs & Hio & _ & Hdef).
  destruct (Hdef Hlog) as (record & Heq & _ & Hlg & Hparse & _).
  exists c, s', evs. split; [exact Hevs|]. split; [exact Hio|]. rewrite Heq. split.
  - cbn [log_calls flat_map app]. fold (log_calls (record ++ [ev_io c])).
    now rewrite log_calls_app, Hlg.
  - cbn [printed]. rewrite printed_app. cbn [printed]. now rewrite append_empty_r.
Qed.

(** [main] up to the choice of the mode, when everything succeeds. *)
Lemma main_reaches_the_mode (o : options) (e : environment istream) (n : nat) (w : world) :
  output_opens o e -> env_iopl e = true -> env_calloc e = true ->
  main_after_options o e n w
  = (if opt_generate o
     then main_generate e (opt_seed o) (main_fuzzer o) n 0
     else main_replay e (opt_input o) (main_fuzzer o)) w.
Proof.
  intros Hout Hiopl Hcalloc. unfold main_after_options, main_fuzzer, output_stream.
  rewrite Hiopl, Hcalloc. cbn [negb].
  destruct (opt_output o) as [path|] eqn:Ho.
  - rewrite (Hout path Ho). reflexivity.
  - reflexivity.
Qed.

Lemma io_fuzzer_error_reports
    (io_fuzzer : option io_fuzzer_t) (status error : Z) (format : string)
    (ap : va_list) (w : world) :
  runs (io_fuzzer_error (mk_globals (Some default_error_handler)) io_fuzzer
          status error format ap)
    w Abort (report_events status error format ap).
Proof.
  unfold io_fuzzer_error, default_error_handler. cbn [error_handler].
  eapply runs_events.
  - eapply runs_bind; [apply runs_emit | cbn beta].
    eapply runs_bind; [apply runs_emit | cbn beta].
    eapply runs_bind; [apply runs_emit | cbn beta].
    eapply runs_bind.
    + instantiate (2 := tt).
      instantiate (1 := if error =? 0 then []
                        else [ev_fprintf stderr
                                (": " ++ strerror error ++ String LF EmptyString)%string]).
      destruct (error =? 0); [apply runs_ret | apply runs_emit].
    + cbn beta. eapply runs_bind; [apply runs_emit | cbn beta]. apply runs_abort.
  - unfold report_events. cbn [app]. reflexivity.
Qed.

(** X16.  Without the I/O privilege [main] touches no port: when
    [iopl(3)] fails, in either mode and whatever else succeeds, [main]
    prints one [perror] line and exits with [EXIT_FAILURE]; no instance
    is created, nothing is logged and no primitive is invoked. *)
Theorem main_exits_when_iopl_fails
    (o : options) (e : environment istream) (n : nat) (w : world) :
  env_iopl e = false ->
  exists message,
    runs (main_after_options o e n) w (Ok (Some EXIT_FAILURE))
      [ev_fprintf stderr message].
Proof.
  intros Hiopl. unfold main_after_options. rewrite Hiopl. cbn [negb].
  destruct (match opt_output o with
            | Some path => if env_fopen_output e path then Some (fopen path) else None
            | None => Some stdout
            end);
    eexists; unfold perror;
    (eapply runs_events;
     [eapply runs_bind; [apply runs_emit | apply runs_ret] | reflexivity]).
Qed.

(** X17.  The replay mode reads the standard input, also when an input
    file is named: a named file that opens is opened and left unread,
    and [main] runs as it does with no file named. *)
Theorem main_replay_reads_stdin
    (o : options) (e : environment istream) (n : nat) (w : world)
    (path : string) (file : istream) :
  opt_generate o = false -> opt_input o = Some path ->
  env_fopen_input e path = Some file ->
  main_after_options o e n w = main_after_options (without_input o) e n w.
Proof.
  intros Hg Hi Hf. unfold main_after_options, without_input.
  cbn [opt_output opt_ports opt_num_ports opt_generate opt_input opt_seed].
  rewrite Hg, Hi. unfold main_replay. rewrite Hf. reflexivity.
Qed.

(** X18.  [main] installs [default_error_handler] before it creates the
    instance, so a failed allocation ends in [abort()] after the report
    of the handler: [main] does not reach its own [perror] and does not
    exit. *)
Theorem main_aborts_when_calloc_fails
    (o : options) (e : environment istream) (n : nat) (w : world) :
  output_opens o e -> env_iopl e = true -> env_calloc e = false ->
  runs (main_after_options o e n) w Abort
    (report_events 0 (env_errno e) "io_fuzzer_create" []).
Proof.
  intros Hout Hiopl Hcalloc. unfold main_after_options.
  rewrite Hiopl, Hcalloc. cbn [negb].
  assert (forall stream : FILE,
            runs (io_fuzzer <- io_fuzzer_create
                                 (snd (io_fuzzer_set_error_handler initial_globals
                                         (Some default_error_handler)))
                                 false (env_errno e) (opt_ports o) (opt_num_ports o) ;;
                  match io_fuzzer with
                  | None => perror e "io_fuzzer_create" ;; main_err None
                  | Some io_fuzzer =>
                      if opt_generate o
                      then main_generate e (opt_seed o)
                             (snd (io_fuzzer_set_log_stream
                                     (snd (io_fuzzer_set_log_handler io_fuzzer
                                             (Some default_log_handler)))
                                     (Some stream))) n 0
                      else main_replay e (opt_input o)
                             (snd (io_fuzzer_set_log_stream
                                     (snd (io_fuzzer_set_log_handler io_fuzzer
                                             (Some default_log_handler)))
                                     (Some stream)))
                  end)%C w Abort
              (report_events 0 (env_errno e) "io_fuzzer_create" [])) as Hcreate.
  { intros stream. apply runs_bind_abort.
    unfold io_fuzzer_create. apply runs_bind_abort. apply io_fuzzer_error_reports. }
  destruct (opt_output o) as [path|] eqn:Ho.
  - rewrite (Hout path Ho). apply Hcreate.
  - apply Hcreate.
Qed.



Lemma main_generate_runs (e : environment istream) (seed : Z)
    (io_fuzzer : io_fuzzer_t) (out : FILE) :
  derive_range_bounded -> read16_is_uint16 -> read_string_exact ->
  counts_ports io_fuzzer -> logs_by_default io_fuzzer out ->
  (forall bytes, env_fmemopen e bytes <> None) ->
  forall n calls w,
  exists evs,
    runs (main_generate e seed io_fuzzer n calls) w (Ok None) evs /\
    List.length (io_calls evs) = n /\
    List.length (log_calls evs) = n.
Proof.
  intros Hrange H16 Hexact Hcount Hlog Hmem.
  induction n as [|n IH]; intros calls w.
  - exists []. split; [apply runs_ret | now split].
  - cbn [main_generate].
    set (buf := random_buf (env_random e seed) calls (Z.to_nat IO_FUZZER_MAX_INPUT)).
    destruct (env_fmemopen e (fst buf)) as [stream|] eqn:Hs;
      [|exfalso; now apply (Hmem (fst buf))].
    destruct (iterate_returns io_fuzzer out stream w Hrange H16 Hexact Hcount Hlog)
      as (c & s' & evs1 & Hit & Hio & Hlg & _).
    destruct (IH (snd buf) (extend w evs1)) as (evs2 & Hrest & Hio2 & Hlg2).
    exists (evs1 ++ evs2)%list. split.
    + eapply runs_bind; [exact Hit | cbn beta].
      unfold fclose at 1.
      change evs2 with ([] ++ evs2)%list.
      eapply runs_bind; [apply runs_ret | rewrite extend_nil; exact Hrest].
    + rewrite io_calls_app, log_calls_app, !length_app, Hio, Hlg, Hio2, Hlg2.
      now split.
Qed.

(** X20.  The generation mode, under the contract of the engine and with
    the privilege, the memory and the streams it asks for: however many
    iterations are watched, [main] is still running after them, each
    iteration has invoked exactly one primitive and logged it once. *)
Theorem main_generate_invokes_and_logs_each_iteration
    (o : options) (e : environment istream) (n : nat) (w : world) :
  derive_range_bounded -> read16_is_uint16 -> read_string_exact ->
  counts_ports (main_fuzzer o) ->
  output_opens o e -> env_iopl e = true -> env_calloc e = true ->
  opt_generate o = true ->
  (forall bytes, env_fmemopen e bytes <> None) ->
  exists evs,
    runs (main_after_options o e n) w (Ok None) evs /\
    List.length (io_calls evs) = n /\
    List.length (log_calls evs) = n.
Proof.
  intros Hrange H16 Hexact Hcount Hout Hiopl Hcalloc Hg Hmem.
  assert (logs_by_default (main_fuzzer o) (output_stream o)) as Hlog
    by (split; reflexivity).
  destruct (main_generate_runs e (opt_seed o) (main_fuzzer o) (output_stream o)
              Hrange H16 Hexact Hcount Hlog Hmem n 0%nat w) as (evs & Hrun & Hcounts).
  exists evs. split; [|exact Hcounts].
  unfold runs. rewrite main_reaches_the_mode by assumption. rewrite Hg. exact Hrun.
Qed.

Lemma draws_per_iteration :
  ((Z.to_nat IO_FUZZER_MAX_INPUT + 1) / 2 = Z.to_nat 131080)%nat /\
  (2 * Z.to_nat 131080 = Z.to_nat IO_FUZZER_MAX_INPUT)%nat.
Proof.
  unfold IO_FUZZER_MAX_INPUT, sizeof_uint32_t, UINT16_MAX.
  change (20 + 4 * 65535) with 262160. split; [|lia].
  apply Nat2Z.inj. rewrite Nat2Z.inj_div, Nat2Z.inj_add, !Z2Nat.id by lia.
  reflexivity.
Qed.

(** X21.  Each iteration of the generation mode draws 131080 results of
    [random()], half of [IO_FUZZER_MAX_INPUT], and reads a buffer made of
    the low and the second byte of each of them, no number being cut;
    the next iteration goes on with the results that follow. *)
Theorem main_generate_draws_131080_numbers
    (e : environment istream) (seed : Z) (io_fuzzer : io_fuzzer_t)
    (n calls : nat) (stream : istream) (w : world) :
  env_fmemopen e
    (flat_map (fun j => low_bytes (env_random e seed j)) (seq calls (Z.to_nat 131080)))
  = Some stream ->
  main_generate e seed io_fuzzer (S n) calls w
  = (io_fuzzer_iterate io_fuzzer stream ;;
     fclose ;;
     main_generate e seed io_fuzzer n (calls + Z.to_nat 131080))%C w.
Proof.
  intros Hs. cbn [main_generate]. rewrite random_buf_closed. cbn [fst snd].
  destruct draws_per_iteration as [-> Hsize].
  rewrite firstn_all2 by (rewrite low_bytes_length, length_seq; lia).
  now rewrite Hs.
Qed.

(** X22.  A named input file has to open although it is never read: in
    the replay mode, when [fopen(input, "r")] fails, [main] prints one
    [perror] line and exits with [EXIT_FAILURE], after the instance was
    created and before any iteration; nothing is logged and no primitive
    is invoked. *)
Theorem main_replay_exits_when_input_fails
    (o : options) (e : environment istream) (n : nat) (w : world) (path : string) :
  output_opens o e -> env_iopl e = true -> env_calloc e = true ->
  opt_generate o = false -> opt_input o = Some path ->
  env_fopen_input e path = None ->
  runs (main_after_options o e n) w (Ok (Some EXIT_FAILURE))
    [ev_fprintf stderr
       ("fopen: " ++ strerror (env_errno e) ++ String LF EmptyString)%string].
Proof.
  intros Hout Hiopl Hcalloc Hg Hi Hf. unfold runs.
  rewrite main_reaches_the_mode by assumption. rewrite Hg, Hi.
  unfold main_replay. rewrite Hf. fold (runs (perror e "fopen" ;; ret (Some EXIT_FAILURE))%C w
    (Ok (Some EXIT_FAILURE))
    [ev_fprintf stderr
       ("fopen: " ++ strerror (env_errno e) ++ String LF EmptyString)%string]).
  eapply runs_events; [eapply runs_bind; [apply runs_emit | apply runs_ret] | reflexivity].
Qed.

End MainProperties.

(* ================================================================== *)
(** * More concrete runs *)
(* ================================================================== *)

(** Two generators that differ above bit 15. *)
Lemma random_buf_keeps_16_bits_witness :
  fst (random_buf (fun j => Z.of_nat j) 0 5)
  = fst (random_buf (fun j => Z.of_nat j + 65536) 0 5).
Proof.
  apply (random_buf_keeps_16_bits (fun j => Z.of_nat j) (fun j => Z.of_nat j + 65536)).
  intros j. symmetry. apply (Z_mod_plus_full (Z.of_nat j) 1 65536).
Defined.

(** The log call of [io_read8] on port [0x60]. *)
Lemma default_log_handler_locks_prints_syncs_unlocks_witness :
  exists body,
    runs (@default_log_handler example_libc (Some stdout) "su"
            [va_str "function"; va_str "io_read8"; va_str "port"; va_int 96])
      world_0 (Ok tt)
      ([ev_flockfile stdout; ev_fprintf stdout "{ ";
        ev_fprintf stdout
          (quoted "time" ++ ": " ++ fmt_d (to_int (to_uint32 (w_time world_0))) ++ ",")%string]
       ++ body
       ++ [ev_fprintf stdout (String " " (String "}" (String LF EmptyString)));
           ev_fflush stdout; ev_fsync stdout; ev_funlockfile stdout])%list /\
    Forall (is_fprintf_to stdout) body.
Proof.
  apply (@default_log_handler_locks_prints_syncs_unlocks example_libc stdout "su").
  - reflexivity.
  - reflexivity.
Defined.


(** A string, a signed and a [size_t] field. *)
Lemma default_log_handler_record_reads_back_witness :
  exists evs,
    runs (@default_log_handler example_libc (Some stdout) "sdz"
            [va_str "function"; va_str "io_read8"; va_str "delta"; va_int (-5);
             va_str "count"; va_int 3])
      world_0 (Ok tt) evs /\
    parse_record (printed evs)
    = Some [("time", number (fmt_d (to_int (to_uint32 (w_time world_0)))));
            ("function", text "io_read8"); ("delta", number (fmt_d (to_int (-5))));
            ("count", number (fmt_u (to_uint64 3)))].
Proof.
  apply (@default_log_handler_record_reads_back example_libc stdout
           "function" (field_s "io_read8")
           [("delta", field_d (-5)); ("count", field_z 3)] world_0).
  reflexivity.
Defined.

(** Selector 8 with a log handler that gives up: no write. *)
Lemma aborting_log_handler_prevents_the_invocation_witness :
  exists format ap evs,
    runs (@io_fuzzer_iterate _ byte_input aborting_fuzzer [0; 0; 0; 0; 8; 0; 0; 0; 65])
      world_0 Abort (ev_log (log_stream aborting_fuzzer) format ap :: evs) /\
    io_calls (ev_log (log_stream aborting_fuzzer) format ap :: evs) = [].
Proof.
  apply (@aborting_log_handler_prevents_the_invocation _ byte_input aborting_fuzzer
           aborting_log_handler [0; 0; 0; 0; 8; 0; 0; 0; 65] 96 [8; 0; 0; 0; 65] world_0).
  - apply byte_input_read16_is_uint16.
  - apply byte_input_read_string_exact.
  - reflexivity.
  - vm_compute. split; congruence.
  - reflexivity.
  - intros format ap w'. exists []. split; [apply runs_abort | reflexivity].
Defined.

(** Selector 8 with the default handler and no stream. *)
Lemma default_handler_without_stream_is_undefined_witness :
  exists format ap,
    runs (@io_fuzzer_iterate _ byte_input unstreamed_fuzzer [0; 0; 0; 0; 8; 0; 0; 0; 65])
      world_0 Undefined [ev_log None format ap].
Proof.
  apply (@default_handler_without_stream_is_undefined example_libc _ byte_input
           unstreamed_fuzzer [0; 0; 0; 0; 8; 0; 0; 0; 65] 96 [8; 0; 0; 0; 65] world_0).
  - apply byte_input_read16_is_uint16.
  - apply byte_input_read_string_exact.
  - reflexivity.
  - vm_compute. split; congruence.
  - reflexivity.
  - reflexivity.
Defined.

(** Selector 4, count 3: the stream is left after the count. *)
Lemma reads_take_no_data_from_the_stream_witness :
  exists c evs,
    runs (@io_fuzzer_iterate _ byte_input fuzzer_0x60 [0; 0; 0; 0; 4; 0; 0; 0; 3; 0; 7; 7])
      world_0 (Ok [7; 7]) evs /\
    io_calls evs = [c] /\
    io_port c = 96 /\
    io_count c = Some 3.
Proof.
  apply (@reads_take_no_data_from_the_stream example_libc _ byte_input fuzzer_0x60
           [0; 0; 0; 0; 4; 0; 0; 0; 3; 0; 7; 7] 96 [4; 0; 0; 0; 3; 0; 7; 7] stdout world_0).
  - apply byte_input_read16_is_uint16.
  - reflexivity.
  - right. split; reflexivity.
  - vm_compute. split; congruence.
Defined.


(** The 16-bit string write of two elements. *)
Lemma string_write_data_comes_from_the_stream_witness :
  exists c s' evs,
    runs (@io_fuzzer_iterate _ byte_input fuzzer_0x60 write_string16_stream)
      world_0 (Ok s') evs /\
    io_calls evs = [c] /\
    io_kind c = string_write /\
    io_count c = Some 2 /\
    io_data c = Some [1; 2; 3; 4] /\
    forall data, io_data c = Some data -> Z.of_nat (List.length data) = io_extent c.
Proof.
  apply (@string_write_data_comes_from_the_stream example_libc _ byte_input fuzzer_0x60
           write_string16_stream 96 [9; 0; 0; 0; 2; 0; 1; 2; 3; 4] stdout world_0).
  - apply byte_input_read16_is_uint16.
  - apply byte_input_read_string_exact.
  - reflexivity.
  - right. split; reflexivity.
  - vm_compute. split; congruence.
Defined.

(** A count of five for a list of one entry, and the index 3. *)
Lemma port_index_beyond_the_array_is_undefined_witness :
  runs (@io_fuzzer_iterate _ byte_input overcounted_fuzzer [3; 0; 0; 0; 8; 0; 0; 0; 65])
    world_0 Undefined [].
Proof.
  apply (@port_index_beyond_the_array_is_undefined _ byte_input overcounted_fuzzer
           [3; 0; 0; 0; 8; 0; 0; 0; 65] [96] world_0).
  - reflexivity.
  - vm_compute. congruence.
  - vm_compute. congruence.
Defined.

(** An error handler that returns: [io_fuzzer_create] returns [NULL]. *)
Lemma create_reports_once_and_returns_null_witness :
  runs (io_fuzzer_create (mk_globals (Some returning_error_handler)) false 12
          (Some [96]) 1)
    world_0 (Ok None) [ev_error 0 12 "io_fuzzer_create" []] /\
  runs (io_fuzzer_create (mk_globals (Some returning_error_handler)) true 12
          (Some [96]) 1)
    world_0 (Ok (Some (mk_io_fuzzer (Some [96]) 1 None None))) [].
Proof.
  apply (create_reports_once_and_returns_null returning_error_handler 12
           (Some [96]) 1 world_0 (Ok tt) []).
  reflexivity.
Defined.

(** A process without the I/O privilege. *)
Lemma main_exits_when_iopl_fails_witness :
  exists message,
    runs (@main_after_options example_libc _ byte_input example_options
            unprivileged_environment 0)
      world_0 (Ok (Some EXIT_FAILURE)) [ev_fprintf stderr message].
Proof.
  apply (@main_exits_when_iopl_fails example_libc _ byte_input example_options
           unprivileged_environment 0 world_0).
  reflexivity.
Defined.

(** The file [input] is named, opens, and is not read. *)
Lemma main_replay_reads_stdin_witness :
  @main_after_options example_libc _ byte_input example_options example_environment 0
    world_0
  = @main_after_options example_libc _ byte_input (without_input example_options)
      example_environment 0 world_0.
Proof.
  apply (@main_replay_reads_stdin example_libc _ byte_input example_options
           example_environment 0 world_0 "input" [0; 0; 0; 0; 0; 0; 0; 0]).
  - reflexivity.
  - reflexivity.
  - reflexivity.
Defined.

(** A process out of memory. *)
Lemma main_aborts_when_calloc_fails_witness :
  runs (@main_after_options example_libc _ byte_input example_options
          exhausted_environment 0)
    world_0 Abort (@report_events example_libc 0 12 "io_fuzzer_create" []).
Proof.
  apply (@main_aborts_when_calloc_fails example_libc _ byte_input example_options
           exhausted_environment 0 world_0).
  - intros path Hpath. reflexivity.
  - reflexivity.
  - reflexivity.
Defined.


(** Two iterations of the generation mode. *)
Lemma main_generate_invokes_and_logs_each_iteration_witness :
  exists evs,
    runs (@main_after_options example_libc _ byte_input generate_options
            example_environment 2)
      world_0 (Ok None) evs /\
    List.length (io_calls evs) = 2%nat /\
    List.length (log_calls evs) = 2%nat.
Proof.
  apply (@main_generate_invokes_and_logs_each_iteration example_libc _ byte_input
           generate_options example_environment 2 world_0).
  - apply byte_input_derive_range_bounded.
  - apply byte_input_read16_is_uint16.
  - apply byte_input_read_string_exact.
  - split; [vm_compute; split; congruence |].
    intros l Hl. injection Hl as <-. reflexivity.
  - intros path Hpath. discriminate Hpath.
  - reflexivity.
  - reflexivity.
  - reflexivity.
  - intros bytes. discriminate.
Defined.

(** The first iteration of the generation mode. *)
Lemma main_generate_draws_131080_numbers_witness :
  @main_generate example_libc _ byte_input example_environment 1 fuzzer_0x60 1 0 world_0
  = (@io_fuzzer_iterate _ byte_input fuzzer_0x60
       (flat_map (fun j => low_bytes (env_random example_environment 1 j))
          (seq 0 (Z.to_nat 131080))) ;;
     fclose ;;
     @main_generate example_libc _ byte_input example_environment 1 fuzzer_0x60 0
       (0 + Z.to_nat 131080))%C world_0.
Proof.
  apply (@main_generate_draws_131080_numbers example_libc _ byte_input example_environment 1
           fuzzer_0x60 0 0
           (flat_map (fun j => low_bytes (env_random example_environment 1 j))
              (seq 0 (Z.to_nat 131080)))
           world_0).
  reflexivity.
Defined.

(** The file [input] is named and does not open. *)
Lemma main_replay_exits_when_input_fails_witness :
  runs (@main_after_options example_libc _ byte_input example_options
          unreadable_environment 0)
    world_0 (Ok (Some EXIT_FAILURE))
    [ev_fprintf stderr
       ("fopen: " ++ @strerror example_libc 2 ++ String LF EmptyString)%string].
Proof.
  apply (@main_replay_exits_when_input_fails example_libc _ byte_input example_options
           unreadable_environment 0 world_0 "input").
  - intros path Hpath. reflexivity.
  - reflexivity.
  - reflexivity.
  - reflexivity.
  - reflexivity.
  - reflexivity.
Defined.
